(** * httputil: the adaptive rate limiter and the 429 retry dispatcher

    A shallow embedding of [ratelimiter.go], [request.go], [client.go]
    (the dispatcher, the builders, Request, DoAndDecode and DoReq), the
    response decoders and the models of the example package of
    github.com/tempcke/httputil, followed by the properties established
    about them.

    Conventions of the embedding.
    - A Go pointer that may be nil is an [option]; a method with a pointer
      receiver takes the pointee and returns the updated pointee.
    - [float64] arithmetic is abstracted by the class [Float64Ops]; the
      program runs on the instance [float64] (IEEE 754 binary64, Rocq's
      primitive floats), and the instance [exact] reads the same code over
      the real numbers.
    - Everything outside the package (clock, network, peer, the standard
      library's header canonicalisation, the iteration order of a Go map,
      JSON encoding and decoding, the building of a request, the token
      bucket's Wait) is collected in the classes [Externals], [RateWait],
      [RequestExternals] and [DecodeExternals]. *)

From Stdlib Require Import Reals Lra.
From Stdlib Require Import Floats.PrimFloat.
From stdpp Require Import gmap strings list fin_maps pretty.

(** ** float64 arithmetic *)

Class Float64Ops (F : Type) := {
  fmul : F → F → F;
  fdiv : F → F → F;
  fsub : F → F → F;
  fone : F;                 (* the literal 1 *)
  fMaxInt32 : F;            (* float64(math.MaxInt32) *)
  fTenth : F;               (* the literal 0.1 *)
}.

(** The arithmetic the program runs on. 0.1 is not a binary64 value; the
    literal denotes the nearest one, written here in hexadecimal. *)
#[export] Instance float64 : Float64Ops float := {
  fmul := PrimFloat.mul;
  fdiv := PrimFloat.div;
  fsub := PrimFloat.sub;
  fone := 1%float;
  fMaxInt32 := 2147483647%float;
  fTenth := 0x1.999999999999ap-4%float;
}.

(** The same operations over the reals. *)
#[export] Instance exact : Float64Ops R := {
  fmul := Rmult;
  fdiv := Rdiv;
  fsub := Rminus;
  fone := 1%R;
  fMaxInt32 := 2147483647%R;
  fTenth := (1 / 10)%R;
}.

(** ** ratelimiter.go *)

Section Limiter.
Context {F : Type} `{Float64Ops F}.

(** golang.org/x/time/rate.Limiter, as far as the package observes it:
    the refill rate and the bucket size. Its token count and time stamp
    only matter to [Wait], which is the operation of [RateWait]. *)
Record rate_Limiter := { limit : F; burst : Z }.

Definition rate_NewLimiter (r : F) (b : Z) : rate_Limiter :=
  {| limit := r; burst := b |}.
Definition rate_SetLimit (l : rate_Limiter) (newLimit : F) : rate_Limiter :=
  {| limit := newLimit; burst := burst l |}.
Definition rate_SetBurst (l : rate_Limiter) (newBurst : Z) : rate_Limiter :=
  {| limit := limit l; burst := newBurst |}.

Record RateLimiter := {
  Limiter : option rate_Limiter;
  changePercent : F;          (* 0.1 = 10% *)
}.

Definition MaxAllowedCallsPerSecond : F := fMaxInt32.
Definition DefaultBurst : Z := 1.
Definition DefaultCPSChangePercent : F := fTenth.
End Limiter.

Arguments rate_Limiter : clear implicits.
Arguments RateLimiter : clear implicits.

(** ** The outside world *)

(** Types the package takes from elsewhere and never looks into. *)
Class Types := {
  World : Type;             (* clock, network, peers, body streams *)
  context_Context : Type;   (* context.Context *)
  LevelLogger : Type;       (* an implementation of the LevelLogger interface *)
  JSON : Type;              (* a decoded map[string]any *)
}.

(** A Go error value, identified with its message. *)
Definition go_error : Type := string.

(** net/http.Header: a map from keys to the list of their values. A lookup
    of an absent key yields the nil slice, as [!!!] yields [[]]. *)
Abbreviation http_Header := (gmap string (list string)).

Module url_URL.
Record t := { Path : string; RawQuery : string }.
End url_URL.

(** The object a [*http.Request] points to. [Header] is the content of the
    map the request carries, which http.NewRequest always allocates. *)
Module http_Request.
Record t `{Types} := {
  Method : string;
  URL : url_URL.t;
  Header : http_Header;
  ctx : context_Context;
}.
Definition withHeader `{Types} (r : t) (hd : http_Header) : t :=
  {| Method := Method r; URL := URL r; Header := hd; ctx := ctx r |}.
End http_Request.

(** The response descriptor: status line, status code and headers. The body
    is a stream and belongs to [World]. *)
Module http_Response.
Record t := { Status : string; StatusCode : Z; Header : http_Header }.
End http_Response.

Definition StatusTooManyRequests : Z := 429.

(** What a transport call yields: the Go pair [(res, err)]. *)
Definition outcome : Type := option http_Response.t * option go_error.

(** The interface [httpClient]: [Do(req) (res, err)]. A transport reads the
    request and acts on the world. *)
Definition httpClient `{Types} : Type :=
  http_Request.t → World → outcome * World.

Class Externals `{Types} := {
  (* net/textproto.CanonicalMIMEHeaderKey *)
  CanonicalMIMEHeaderKey : string → string;
  (* the order in which one [range] over a map visits its entries *)
  rangeOrder : World → http_Header → list (string * list string);
  rangeOrder_perm : ∀ w m, rangeOrder w m ≡ₚ map_to_list m;
  (* the package variable defaultClient, an http.Client *)
  defaultClient : httpClient;
  (* slog.Default() *)
  slog_Default : LevelLogger;
  (* json.NewDecoder(io.TeeReader(r.Body, &buf)).Decode(out) for a map
     [out]: the bytes that reached [buf], the decoded value, the error *)
  json_Decode : http_Response.t → World → (list Byte.byte * JSON * option go_error) * World;
  (* r.Body = io.NopCloser(&buf) *)
  set_Body : http_Response.t → list Byte.byte → World → World;
}.

(** rate.Limiter.Wait: blocks until a token is free, or gives up with an
    error (the context is done, or the wait would outlast its deadline). *)
Class RateWait (F : Type) `{Types} := {
  rate_Wait : rate_Limiter F → context_Context → World → option go_error * World;
}.

(** ** ratelimiter.go: methods *)

(** Methods on a pointer to a RateLimiter; the receiver [r] is [None] for a
    nil pointer. A method that mutates returns the pointee afterwards. *)
Module RateLimiter.
Section Methods.
Context {F : Type} `{Float64Ops F} `{RateWait F}.

Definition Wait (r : option (RateLimiter F)) (ctx : context_Context)
  (w : World) : option go_error * World :=
  match r with
  | None => (None, w)
  | Some rl =>
      match Limiter rl with
      | None => (None, w)
      | Some l => rate_Wait l ctx w
      end
  end.

(** [Do] runs a caller's closure; [invoked] counts how often any closure
    has been run. *)
Record Run := { run_world : World; invoked : nat }.

Definition invoke (doFn : World → option go_error * World) (st : Run)
  : option go_error * Run :=
  let '(err, w) := doFn (run_world st) in
  (err, {| run_world := w; invoked := S (invoked st) |}).

Definition Do (r : option (RateLimiter F)) (ctx : context_Context)
  (doFn : World → option go_error * World) (st : Run)
  : option go_error * Run :=
  match Wait r ctx (run_world st) with
  | (Some err, w) => (Some err, {| run_world := w; invoked := invoked st |})
  | (None, w) =>
      match invoke doFn {| run_world := w; invoked := invoked st |} with
      | (Some err, st') => (Some err, st')
      | (None, st') => (None, st')
      end
  end.

Definition Limit (r : option (RateLimiter F)) : F :=
  match r with
  | None => MaxAllowedCallsPerSecond
  | Some rl =>
      match Limiter rl with
      | None => MaxAllowedCallsPerSecond
      | Some l => limit l
      end
  end.

Definition SetLimit (refillRate : F) (r : option (RateLimiter F))
  : option (RateLimiter F) :=
  match r with
  | None => None
  | Some rl =>
      match Limiter rl with
      | None =>
          Some {| Limiter := Some (rate_NewLimiter refillRate DefaultBurst);
                  changePercent := changePercent rl |}
      | Some l =>
          Some {| Limiter := Some (rate_SetLimit l refillRate);
                  changePercent := changePercent rl |}
      end
  end.

Definition SlowDown (r : option (RateLimiter F)) : option (RateLimiter F) :=
  match r with
  | None => r
  | Some rl =>
      match Limiter rl with
      | None => r
      | Some _ => SetLimit (fmul (Limit r) (fsub fone (changePercent rl))) r
      end
  end.

Definition SpeedUp (r : option (RateLimiter F)) : option (RateLimiter F) :=
  match r with
  | None => r
  | Some rl =>
      match Limiter rl with
      | None => r
      | Some _ => SetLimit (fdiv (Limit r) (fsub fone (changePercent rl))) r
      end
  end.

Definition SetBurst (b : Z) (r : option (RateLimiter F))
  : option (RateLimiter F) :=
  match r with
  | None => r
  | Some rl =>
      match Limiter rl with
      | None => r
      | Some l =>
          Some {| Limiter := Some (rate_SetBurst l b);
                  changePercent := changePercent rl |}
      end
  end.

Definition Burst (r : option (RateLimiter F)) : Z :=
  match r with
  | None => DefaultBurst
  | Some rl =>
      match Limiter rl with
      | None => DefaultBurst
      | Some l => burst l
      end
  end.
End Methods.
End RateLimiter.

(** Constructor and options. An option is a function on a pointer to a
    RateLimiter; the constructor only ever hands it a non-nil pointer. *)
Section Constructor.
Context {F : Type} `{Float64Ops F}.

Definition RateLimitOption : Type :=
  option (RateLimiter F) → option (RateLimiter F).

Definition RateLimitChangePercent (percent : F) : RateLimitOption :=
  λ r, match r with
       | None => None
       | Some rl =>
           Some {| Limiter := Limiter rl; changePercent := percent |}
       end.

Definition RateLimitBurst (b : Z) : RateLimitOption :=
  λ r, RateLimiter.SetBurst b r.

Definition NewRateLimiter (lim : F) (options : list RateLimitOption)
  : option (RateLimiter F) :=
  foldl (λ rl option, option rl)
    (Some {| Limiter := Some (rate_NewLimiter lim DefaultBurst);
             changePercent := DefaultCPSChangePercent |})
    options.

(** [n] calls of [SlowDown] in a row. *)
Definition SlowDowns (n : nat) (r : option (RateLimiter F))
  : option (RateLimiter F) :=
  Nat.iter n RateLimiter.SlowDown r.

(** A limiter with a backing bucket. *)
Definition backed (l : rate_Limiter F) (p : F) : option (RateLimiter F) :=
  Some {| Limiter := Some l; changePercent := p |}.
End Constructor.

(** ** request.go *)

Definition HeaderReqID : string := "X-Request-ID".

Section Headers.
Context `{Externals}.

(** http.Header.Add: [h[key] = append(h[key], value)] at the canonical key. *)
Definition Header_Add (m : http_Header) (key value : string) : http_Header :=
  let key := CanonicalMIMEHeaderKey key in
  <[key := (m !!! key) ++ [value]]> m.

(** http.Header.Set: [h[key] = []string{value}] at the canonical key. *)
Definition Header_Set (m : http_Header) (key value : string) : http_Header :=
  <[CanonicalMIMEHeaderKey key := [value]]> m.

(** The struct ReqHeaders. [h] is [None] for a nil map and otherwise the
    content of the map the field refers to. *)
Record ReqHeaders := { ReqID : string; h : option http_Header }.
End Headers.

(** Methods on a pointer to a ReqHeaders. *)
Module ReqHeaders.
Section Methods.
Context `{Externals}.

Definition AddHeader (key : string) (vals : list string) (r : ReqHeaders)
  : ReqHeaders :=
  let m := match h r with None => ∅ | Some m => m end in
  {| ReqID := ReqID r;
     h := Some (foldl (λ m val, Header_Add m key val) m vals) |}.

Definition SetHeader (key : string) (vals : list string) (r : ReqHeaders)
  : ReqHeaders :=
  let m := match h r with None => ∅ | Some m => m end in
  {| ReqID := ReqID r;
     h := Some (foldl (λ m val, Header_Set m key val) m vals) |}.

(** Returns the map [r.h] (possibly nil) and the receiver afterwards. *)
Definition Header (r : ReqHeaders) : option http_Header * ReqHeaders :=
  let r' := if decide (ReqID r = "") then r
            else AddHeader HeaderReqID [ReqID r] r in
  (h r', r').

(** [n] calls of [Header] in a row: the receiver afterwards. *)
Definition Headers (n : nat) (r : ReqHeaders) : ReqHeaders :=
  Nat.iter n (λ r, (Header r).2) r.
End Methods.
End ReqHeaders.

Section ReqWithHeaders.
Context `{Externals}.

(** The three nested loops of reqWithHeaders; a nil map among
    [headerMaps] has no entries. The request is mutated in place, the
    result is the request afterwards. *)
Definition reqWithHeaders (w : World) (req : http_Request.t)
  (headerMaps : list (option http_Header)) : http_Request.t :=
  foldl (λ req headers,
    foldl (λ req kvs,
      foldl (λ req v,
        http_Request.withHeader req
          (Header_Add (http_Request.Header req) kvs.1 v))
        req kvs.2)
      req (rangeOrder w (default ∅ headers)))
    req headerMaps.
End ReqWithHeaders.

(** ** response decoding *)

Section Decode.
Context `{Externals}.

(** DecodeResponse for a map [out], as logRqRs calls it: the bytes read,
    the decoded value and the error. *)
Definition DecodeResponse (r : http_Response.t) (w : World)
  : (list Byte.byte * JSON * option go_error) * World :=
  let '(buf, out, err, w) := json_Decode r w in
  match err with
  | Some e =>
      if decide (length buf = 0)
      then (([], out, Some "decode empty body"), w)
      else ((buf, out, Some e), set_Body r buf w)
  | None => ((buf, out, None), set_Body r buf w)
  end.
End Decode.

(** ** logger.go *)

Inductive Level := LevelInfo | LevelWarn | LevelError.

Section Logger.
Context `{Externals}.

Record sLogger := { logger : option LevelLogger }.

Definition newLogger (l : option LevelLogger) : sLogger := {| logger := l |}.

Definition sLogger_log (l : sLogger) : LevelLogger :=
  match logger l with
  | Some x => x
  | None => slog_Default
  end.

(** The field maps logRqRs builds. *)
Record reqFields := {
  f_method : string;
  f_path : string;
  f_header : http_Header;
  f_query : string;
}.
Inductive bodyField :=
  | no_body
  | body (out : JSON)
  | head (s : list Byte.byte).
Record resFields := {
  f_status : string;
  f_resheader : http_Header;
  f_body : bodyField;
}.
Inductive fMap :=
  | req_error (rq : reqFields) (e : string)
  | req_res (rq : reqFields) (rs : resFields).

(** One call of a LevelLogger method. *)
Record LogRecord := {
  sink : LevelLogger;
  level : Level;
  message : string;
  fields : fMap;
}.

Definition sLogger_Info (l : sLogger) (msg : string) (f : fMap) : LogRecord :=
  {| sink := sLogger_log l; level := LevelInfo; message := msg; fields := f |}.
Definition sLogger_Warn (l : sLogger) (msg : string) (f : fMap) : LogRecord :=
  {| sink := sLogger_log l; level := LevelWarn; message := msg; fields := f |}.
Definition sLogger_Error (l : sLogger) (msg : string) (f : fMap) : LogRecord :=
  {| sink := sLogger_log l; level := LevelError; message := msg; fields := f |}.
End Logger.

(** ** client.go: the dispatcher *)

Definition Default429Retry : Z := 2.

Section ClientState.
Context {F : Type} `{Float64Ops F} `{Externals} `{!RateWait F}.

(** The struct Client. [reqHeaders] is the embedded ReqHeaders and
    [rateLimiter] the object the field RateLimiter points to ([None] for
    a nil pointer). *)
Record Client := {
  reqHeaders : ReqHeaders;
  HttpClient : option httpClient;
  Host : string;
  log : sLogger;
  rateLimiter : option (RateLimiter F);
  RetriesOn429 : Z;
}.

(** What a dispatch reads and writes. Client methods have value
    receivers: a call works on a copy of the struct, so of [client] only
    the objects it refers to can change, the header map (when it is not
    nil) and the limiter. [request] is the object the caller's request
    pointer refers to; its header map is a map of its own, not the
    client's. [logged] collects the calls made to the logger and [sent]
    the calls made to the transport, each with the request as it was
    handed over and the outcome, oldest first. *)
Record State := {
  world : World;
  client : Client;
  request : http_Request.t;
  logged : list LogRecord;
  sent : list (http_Request.t * outcome);
}.

Definition set_world (s : State) (w : World) : State :=
  {| world := w; client := client s; request := request s;
     logged := logged s; sent := sent s |}.
Definition set_client (s : State) (c : Client) : State :=
  {| world := world s; client := c; request := request s;
     logged := logged s; sent := sent s |}.
Definition set_request (s : State) (r : http_Request.t) : State :=
  {| world := world s; client := client s; request := r;
     logged := logged s; sent := sent s |}.
Definition add_logged (s : State) (r : LogRecord) : State :=
  {| world := world s; client := client s; request := request s;
     logged := logged s ++ [r]; sent := sent s |}.
Definition add_sent (s : State) (x : http_Request.t * outcome) : State :=
  {| world := world s; client := client s; request := request s;
     logged := logged s; sent := sent s ++ [x] |}.

Definition with_reqHeaders (c : Client) (rh : ReqHeaders) : Client :=
  {| reqHeaders := rh; HttpClient := HttpClient c; Host := Host c;
     log := log c; rateLimiter := rateLimiter c;
     RetriesOn429 := RetriesOn429 c |}.
Definition with_rateLimiter (c : Client) (r : option (RateLimiter F)) : Client :=
  {| reqHeaders := reqHeaders c; HttpClient := HttpClient c; Host := Host c;
     log := log c; rateLimiter := r; RetriesOn429 := RetriesOn429 c |}.

(** Computations of the dispatcher: a state transformer that may panic
    ([None]). *)
Definition M (A : Type) : Type := State → option (A * State).

Definition ret {A} (a : A) : M A := λ s, Some (a, s).
Definition bind {A B} (m : M A) (k : A → M B) : M B :=
  λ s, match m s with
       | None => None
       | Some (a, s') => k a s'
       end.
Definition panic {A} : M A := λ _, None.
Definition get : M State := λ s, Some (s, s).
Definition modify (f : State → State) : M unit := λ s, Some (tt, f s).
End ClientState.

Arguments Client F {_}.
Arguments State F {_}.
Arguments M F {_} A.

Notation "x <- m ;; k" := (bind m (λ x, k))
  (at level 100, m at next level, right associativity).
Notation "m ;;; k" := (bind m (λ _, k))
  (at level 100, right associativity).

Definition is429 (o : outcome) : bool :=
  match o.1 with
  | None => false
  | Some res => bool_decide (http_Response.StatusCode res = StatusTooManyRequests)
  end.

Module Client.
Section Methods.
Context {F : Type} `{Float64Ops F} `{Externals} `{!RateWait F}.

(** [c.Header()] on the copy [c] of the client: the returned map, and the
    effect on the client's own map. A map that Header() allocates is
    stored in the copy only; an existing map is shared with the copy and
    keeps what is added to it. *)
Definition Header : M F (option http_Header) :=
  s <- get ;;
  let c := client s in
  let '(hd, rh) := ReqHeaders.Header (reqHeaders c) in
  match h (reqHeaders c) with
  | None => ret hd
  | Some _ => modify (λ s, set_client s (with_reqHeaders c rh)) ;;; ret hd
  end.

(** The method httpClient(); the name of the interface is taken. *)
Definition httpClient_ (c : Client F) : httpClient :=
  match HttpClient c with
  | Some t => t
  | None => defaultClient
  end.

Definition logRqRs (req : http_Request.t) (res : option http_Response.t)
  (err : option go_error) : M F unit :=
  s <- get ;;
  let c := client s in
  let msg := "[RQ/RS] " +:+ http_Request.Method req +:+ " "
               +:+ url_URL.Path (http_Request.URL req) in
  let reqF := {| f_method := http_Request.Method req;
                 f_path := url_URL.Path (http_Request.URL req);
                 f_header := http_Request.Header req;
                 f_query := url_URL.RawQuery (http_Request.URL req) |} in
  match err with
  | Some e =>
      modify (λ s, add_logged s (sLogger_Error (log c) msg (req_error reqF e)))
  | None =>
      match res with
      | None => panic        (* res.Status on a nil response *)
      | Some r =>
          let '(bodyBytes, out, derr, w) := DecodeResponse r (world s) in
          let bf := match derr with
                    | Some _ => no_body
                    | None =>
                        if decide (length bodyBytes < 1024)%nat then body out
                        else head (take 1024 bodyBytes)
                    end in
          let fields := req_res reqF
                          {| f_status := http_Response.Status r;
                             f_resheader := http_Response.Header r;
                             f_body := bf |} in
          let msg := msg +:+ " " +:+ http_Response.Status r in
          modify (λ s, set_world s w) ;;;
          if decide (400 ≤ http_Response.StatusCode r)%Z
          then modify (λ s, add_logged s (sLogger_Warn (log c) msg fields))
          else modify (λ s, add_logged s (sLogger_Info (log c) msg fields))
      end
  end.

(** One attempt. *)
Definition do : M F outcome :=
  s <- get ;;
  let c := client s in
  let '(werr, w) :=
    RateLimiter.Wait (rateLimiter c) (http_Request.ctx (request s)) (world s) in
  modify (λ s, set_world s w) ;;;
  match werr with
  | Some err => ret (None, Some err)
  | None =>
      hd <- Header ;;
      modify (λ s, set_request s (reqWithHeaders (world s) (request s) [hd])) ;;;
      s <- get ;;
      let '(o, w) := httpClient_ c (request s) (world s) in
      modify (λ s, add_sent (set_world s w) (request s, o)) ;;;
      logRqRs (request s) o.1 o.2 ;;;
      (if is429 o
       then modify (λ s, set_client s
              (with_rateLimiter (client s)
                 (RateLimiter.SlowDown (rateLimiter (client s)))))
       else ret tt) ;;;
      ret o
  end.

(** The retry loop of [Do]: [tries] is the loop variable and [fuel]
    bounds the number of iterations. *)
Fixpoint Do_loop (k : Z) (fuel : nat) (tries : Z) (o : outcome) : M F outcome :=
  match fuel with
  | O => ret o
  | S fuel =>
      if is429 o && bool_decide (tries < k)%Z
      then o <- do ;; Do_loop k fuel (tries + 1) o
      else ret o
  end.

(** [Do]: the loop runs at most [RetriesOn429] times. *)
Definition Do : M F outcome :=
  s <- get ;;
  let k := RetriesOn429 (client s) in
  o <- do ;;
  Do_loop k (Z.to_nat k) 0 o.
End Methods.
End Client.

(** ** Concrete surroundings

    A small world to run the code in: the world is the number of transport
    calls made so far, a context is [true] once it is cancelled, Wait
    succeeds for every caller whose context is live, and bodies are
    empty. *)
Module Demo.
(** The canonical form of net/textproto, for keys in ASCII: a key made
    of token bytes only is put in canonical case (the first letter and
    every letter after a hyphen in upper case, the others in lower case);
    any other key is left as it is. *)
Definition validHeaderFieldByte (c : Ascii.ascii) : bool :=
  let n := Ascii.nat_of_ascii c in
  (Nat.leb 65 n && Nat.leb n 90) || (Nat.leb 97 n && Nat.leb n 122)
  || (Nat.leb 48 n && Nat.leb n 57)
  || existsb (Nat.eqb n) [33; 35; 36; 37; 38; 39; 42; 43; 45; 46; 94; 95; 96; 124; 126]%nat.

Fixpoint canonicalCase (upper : bool) (s : string) : string :=
  match s with
  | EmptyString => EmptyString
  | String c s' =>
      let n := Ascii.nat_of_ascii c in
      let c' := if upper && Nat.leb 97 n && Nat.leb n 122
                then Ascii.ascii_of_nat (n - 32)
                else if negb upper && Nat.leb 65 n && Nat.leb n 90
                     then Ascii.ascii_of_nat (n + 32)
                     else c in
      String c' (canonicalCase (Nat.eqb (Ascii.nat_of_ascii c') 45) s')
  end.

Definition canonicalMIMEHeaderKey (s : string) : string :=
  if forallb validHeaderFieldByte (String.list_ascii_of_string s)
  then canonicalCase true s
  else s.

#[export] Instance types : Types := {
  World := nat;
  context_Context := bool;
  LevelLogger := unit;
  JSON := unit;
}.

#[export] Instance externals : Externals := {
  CanonicalMIMEHeaderKey := canonicalMIMEHeaderKey;
  rangeOrder := λ _ m, map_to_list m;
  rangeOrder_perm := λ _ m, reflexivity (map_to_list m);
  defaultClient := λ _ w, ((None, Some "no transport"), S w);
  slog_Default := tt;
  json_Decode := λ _ w, (([], tt, Some "EOF"), w);
  set_Body := λ _ _ w, w;
}.

#[export] Instance rateWait {F : Type} : RateWait F := {
  rate_Wait := λ _ (cancelled : bool) w,
    (if cancelled then Some "context canceled" else None, w);
}.

Definition response (code : Z) (status : string) : http_Response.t :=
  {| http_Response.Status := status;
     http_Response.StatusCode := code;
     http_Response.Header := ∅ |}.

(** A transport that answers its i-th call with the i-th entry of
    [script], and with [final] once the script is used up. *)
Definition scripted (script : list outcome) (final : outcome) : httpClient :=
  λ _ w, (nth w script final, S w).

Definition tooMany : outcome := (Some (response 429 "429 Too Many Requests"), None).
Definition ok : outcome := (Some (response 200 "200 OK"), None).
Definition serverError : outcome :=
  (Some (response 500 "500 Internal Server Error"), None).

Definition get_ (cancelled : bool) : http_Request.t :=
  {| http_Request.Method := "GET";
     http_Request.URL := {| url_URL.Path := "/"; url_URL.RawQuery := "" |};
     http_Request.Header := ∅;
     http_Request.ctx := cancelled |}.

Definition mkClient (rh : ReqHeaders) (t : httpClient)
  (rl : option (RateLimiter float)) (retries : Z) : Client float :=
  {| reqHeaders := rh; HttpClient := Some t; Host := "";
     log := newLogger None; rateLimiter := rl; RetriesOn429 := retries |}.

Definition start (c : Client float) (req : http_Request.t) : State float :=
  {| world := 0%nat; client := c; request := req; logged := []; sent := [] |}.

Definition noHeaders : ReqHeaders := {| ReqID := ""; h := None |}.

(** A peer that is overloaded for good, a client that retries twice. *)
Definition overloadedPeer : State float :=
  start (mkClient noHeaders (scripted [] tooMany)
           (NewRateLimiter 100%float []) 2) (get_ false).

(** A peer that fails with status 500, then would answer 200. *)
Definition failingPeer : State float :=
  start (mkClient noHeaders (scripted [serverError] ok)
           (NewRateLimiter 100%float []) 2) (get_ false).

(** A client whose ReqID is set and whose header map already holds it,
    as after an earlier dispatch; the peer answers 429, then 200, and the
    client retries once. *)
Definition taggedClient : State float :=
  start (mkClient {| ReqID := "abc";
                     h := Some {[ "X-Request-Id" := ["abc"] ]} |}
           (scripted [tooMany] ok) None 1) (get_ false).

(** The outcome and the final state of a run that does not panic. *)
Definition result (m : option (outcome * State float)) (d : State float)
  : outcome * State float :=
  match m with
  | Some x => x
  | None => ((None, None), d)
  end.
End Demo.

(** ** Vocabulary of the statements *)

(** A limiter without a backing bucket. *)
Definition unset {F : Type} (p : F) : option (RateLimiter F) :=
  Some {| Limiter := None; changePercent := p |}.

(** The tolerance 1e-9, as the binary64 value nearest to it. *)
Definition tolerance : float := 0x1.12e0be826d695p-30%float.

(** A 429 response without an error. *)
Definition overloaded (o : outcome) : bool :=
  is429 o && bool_decide (o.2 = None).


(** The level logRqRs logs an outcome at. *)
Definition severity (o : outcome) : Level :=
  match o with
  | (_, Some _) => LevelError
  | (Some r, None) =>
      if decide (400 ≤ http_Response.StatusCode r)%Z then LevelWarn else LevelInfo
  | (None, None) => LevelInfo
  end.

(** The request fields logRqRs reports. *)
Definition reqFields_of `{Types} (req : http_Request.t) : reqFields :=
  {| f_method := http_Request.Method req;
     f_path := url_URL.Path (http_Request.URL req);
     f_header := http_Request.Header req;
     f_query := url_URL.RawQuery (http_Request.URL req) |}.

Section Vocabulary.
Context {F : Type} `{Float64Ops F} `{Externals} `{!RateWait F}.

(** The request an attempt hands to the transport, in the world [w] that
    Wait left. *)
Definition attempt_request (s : State F) (w : World) : http_Request.t :=
  reqWithHeaders w (request s) [(ReqHeaders.Header (reqHeaders (client s))).1].

(** The part of a client that no method can change. *)
Definition same_config (c c' : Client F) : Prop :=
  HttpClient c' = HttpClient c ∧ Host c' = Host c ∧ log c' = log c
  ∧ RetriesOn429 c' = RetriesOn429 c.

(** The number of transport calls between two states. *)
Definition calls (s s' : State F) : nat := length (sent s') - length (sent s).
End Vocabulary.

(** How often [v] occurs in a list of values. *)
Definition occurrences (v : string) (l : list string) : nat :=
  length (filter (λ x, x = v) l).

(** 1 + 2 + ... + n. *)
Fixpoint triangle (n : nat) : nat :=
  match n with
  | O => 0
  | S m => S m + triangle m
  end.

Section Counting.
Context `{Externals}.

(** How often [v] occurs under the key [K] of a header map. *)
Definition count_at (m : http_Header) (K v : string) : nat :=
  occurrences v (m !!! K).

(** How often a pass over [entries] adds [v] under the key [K]: every
    value of an entry goes to the canonical form of the entry's key. *)
Definition adds (entries : list (string * list string)) (K v : string) : nat :=
  sum_list ((λ kv, if decide (CanonicalMIMEHeaderKey kv.1 = K)
                   then occurrences v kv.2 else 0) <$> entries).

(** The same for the entries of a map; a nil map has none. *)
Definition stored (hd : option http_Header) (K v : string) : nat :=
  adds (map_to_list (default ∅ hd)) K v.

(** [K], [v] is the entry under which Header() files the ReqID of [rh]. *)
Definition reqid_entry (rh : ReqHeaders) (K v : string) : Prop :=
  ReqID rh ≠ ""
  ∧ K = CanonicalMIMEHeaderKey (CanonicalMIMEHeaderKey HeaderReqID)
  ∧ v = ReqID rh.

#[export] Instance reqid_entry_dec rh K v : Decision (reqid_entry rh K v).
Proof. unfold reqid_entry. apply _. Defined.

(** The copies of the ReqID that [n] attempts add beyond the stored
    values: one per attempt while the client has no map, and one more with
    every attempt once it has one. *)
Definition reqid_copies (rh : ReqHeaders) (n : nat) (K v : string) : nat :=
  if decide (reqid_entry rh K v)
  then match h rh with
       | None => n
       | Some _ => triangle n
       end
  else 0.

(** The client's headers after one call of [c.Header()] on a copy. *)
Definition bumped (rh : ReqHeaders) : ReqHeaders :=
  match h rh with
  | None => rh
  | Some _ => (ReqHeaders.Header rh).2
  end.

(** What one attempt adds under [K] for [v], and what [n] attempts that
    reach the transport add one after the other. *)
Definition gain (rh : ReqHeaders) (K v : string) : nat :=
  stored (ReqHeaders.Header rh).1 K v.

Fixpoint total (n : nat) (rh : ReqHeaders) (K v : string) : nat :=
  match n with
  | O => 0
  | S n => gain rh K v + total n (bumped rh) K v
  end.
End Counting.

(** ** More of the package *)

(** *** strings, as request.go uses it *)

(** strings.HasPrefix. *)
Fixpoint HasPrefix (s prefix : string) : bool :=
  match prefix with
  | EmptyString => true
  | String p prefix' =>
      match s with
      | EmptyString => false
      | String c s' => Ascii.eqb c p && HasPrefix s' prefix'
      end
  end.

Definition in_cutset (c : Ascii.ascii) (cutset : string) : bool :=
  existsb (Ascii.eqb c) (String.list_ascii_of_string cutset).

(** strings.TrimLeft and strings.TrimRight for a cutset of ASCII
    characters: the leading, or trailing, bytes that are in the cutset are
    dropped. *)
Fixpoint TrimLeft (s cutset : string) : string :=
  match s with
  | EmptyString => EmptyString
  | String c s' => if in_cutset c cutset then TrimLeft s' cutset else s
  end.

Fixpoint TrimRight (s cutset : string) : string :=
  match s with
  | EmptyString => EmptyString
  | String c s' =>
      match TrimRight s' cutset with
      | EmptyString => if in_cutset c cutset then EmptyString else String c EmptyString
      | t => String c t
      end
  end.

(** uriWithBase of request.go. *)
Definition uriWithBase (uri baseURL : string) : string :=
  if negb (String.eqb baseURL "") && negb (HasPrefix uri baseURL)
  then TrimRight baseURL "/" +:+ "/" +:+ TrimLeft uri "/"
  else uri.

(** *** net/http.Header.Get *)

Section HeaderGet.
Context `{Externals}.

(** The first value under the canonical key, or the empty string. *)
Definition Header_Get (m : http_Header) (key : string) : string :=
  match m !!! CanonicalMIMEHeaderKey key with
  | [] => ""
  | v :: _ => v
  end.
End HeaderGet.

(** *** client.go: builders and the request builder *)

Definition HeaderContentType : string := "Content-Type".
Definition ApplicationJSON : string := "application/json".

(** What client.go takes from encoding/json and net/http to build a
    request. A request body is a stream; like the body of a response it is
    not part of the request descriptor. *)
Class RequestExternals `{Types} := {
  Reader : Type;            (* a body that is an io.Reader *)
  Value : Type;             (* any other body *)
  (* json.Marshal *)
  json_Marshal : Value → list Byte.byte + go_error;
  (* http.NewRequestWithContext(ctx, method, url, body), which fails on a
     bad method or URL and otherwise gives a request with the method (GET
     for the empty method), the context and an empty, allocated header
     map *)
  http_NewRequestWithContext :
    context_Context → string → string → http_Request.t + go_error;
  NewRequest_ok : ∀ ctx method url req,
    http_NewRequestWithContext ctx method url = inl req →
    http_Request.Method req = (if decide (method = "") then "GET" else method)
    ∧ http_Request.Header req = ∅
    ∧ http_Request.ctx req = ctx;
}.

Section Builders.
Context {F : Type} `{Float64Ops F} `{Externals} `{!RateWait F}
  `{!RequestExternals}.

Definition WithHost (v : string) (c : Client F) : Client F :=
  {| reqHeaders := reqHeaders c; HttpClient := HttpClient c; Host := v;
     log := log c; rateLimiter := rateLimiter c;
     RetriesOn429 := RetriesOn429 c |}.
Definition WithLogger (v : option LevelLogger) (c : Client F) : Client F :=
  {| reqHeaders := reqHeaders c; HttpClient := HttpClient c; Host := Host c;
     log := newLogger v; rateLimiter := rateLimiter c;
     RetriesOn429 := RetriesOn429 c |}.
Definition WithHttpClient (v : option httpClient) (c : Client F) : Client F :=
  {| reqHeaders := reqHeaders c; HttpClient := v; Host := Host c;
     log := log c; rateLimiter := rateLimiter c;
     RetriesOn429 := RetriesOn429 c |}.
Definition WithRateLimiter (v : option (RateLimiter F)) (c : Client F) : Client F :=
  with_rateLimiter c v.
Definition With429Retry (v : Z) (c : Client F) : Client F :=
  {| reqHeaders := reqHeaders c; HttpClient := HttpClient c; Host := Host c;
     log := log c; rateLimiter := rateLimiter c; RetriesOn429 := v |}.

(** WithHeader has a value receiver and calls AddHeader, which has a
    pointer receiver, on its copy [c]: the result is the copy; the client
    it was called on keeps its own fields, but a header map it already has
    is the one the copy adds to. The pair is the client returned and the
    client the method was called on, afterwards. *)
Definition WithHeader (w : World) (hdr : option http_Header) (c : Client F)
  : Client F * Client F :=
  let rh := foldl (λ rh kv, ReqHeaders.AddHeader kv.1 kv.2 rh)
              (reqHeaders c) (rangeOrder w (default ∅ hdr)) in
  (with_reqHeaders c rh,
   match h (reqHeaders c) with
   | None => c
   | Some _ => with_reqHeaders c rh
   end).

(** The body argument of Request: nil, an io.Reader, or anything else. *)
Inductive body_arg :=
  | body_nil
  | body_reader (r : Reader)
  | body_value (v : Value).

(** Request. The result is the Go pair and, third, the caller's [headers]
    map afterwards: Request adds the content type to the map it is given,
    and to a map of its own only when it is given nil. *)
Definition Request (c : Client F) (w : World) (ctx : context_Context)
  (method uri : string) (headers : option http_Header) (body : body_arg)
  : option http_Request.t * option go_error * option http_Header :=
  let encoded :=
    match body with
    | body_value v =>
        match json_Marshal v with
        | inr err => inr err
        | inl _ =>
            inl (Some (Header_Add (default ∅ headers)
                         HeaderContentType ApplicationJSON))
        end
    | _ => inl headers
    end in
  match encoded with
  | inr err => (None, Some ("jsonEncode(body) failed: " +:+ err), headers)
  | inl headers' =>
      let callers := match headers with
                     | None => None
                     | Some _ => headers'
                     end in
      match http_NewRequestWithContext ctx method (uriWithBase uri (Host c)) with
      | inr err => (None, Some ("http.NewRequest failed: " +:+ err), callers)
      | inl req => (Some (reqWithHeaders w req [headers']), None, callers)
      end
  end.
End Builders.

(** *** Vocabulary of the further statements *)

Section MoreVocabulary.
Context {F : Type} `{Float64Ops F} `{Externals} `{!RateWait F}.


(** The options the package offers. *)
Definition offered (o : RateLimitOption (F:=F)) : Prop :=
  (∃ p, o = RateLimitChangePercent p) ∨ (∃ b, o = RateLimitBurst b).

(** The transport calls a dispatch made: what [sent] gained. *)
Definition exchanges (s s' : State F) : list (http_Request.t * outcome) :=
  drop (length (sent s)) (sent s').

(** How many of some transport calls were answered by a 429 response. *)
Definition overloads (l : list (http_Request.t * outcome)) : nat :=
  length (filter (λ x, is429 x.2 = true) l).

(** From [s] to [s'] the transport calls [new] were made, each was logged
    once, each 429 response slowed the limiter down once, and the rest of
    the client's configuration stayed. *)
Definition dispatched (s s' : State F)
  (new : list (http_Request.t * outcome)) : Prop :=
  sent s' = sent s ++ new
  ∧ length (logged s') = (length (logged s) + length new)%nat
  ∧ rateLimiter (client s')
    = SlowDowns (overloads new) (rateLimiter (client s))
  ∧ same_config (client s) (client s').
End MoreVocabulary.

(** *** client.go: DoAndDecode and DoReq *)

Definition ErrInvalidRequest : go_error := "request invalid".

(** What the general DecodeResponse takes from encoding/json: the target
    used for a nil [out], and the decoder run through the tee reader, which
    yields the bytes that reached the buffer and the error. What is written
    into the target is not modelled. *)
Class DecodeExternals `{Types} := {
  Target : Type;
  rawMessage : Target;      (* &json.RawMessage{} *)
  json_DecodeInto :
    Target → http_Response.t → World → (list Byte.byte * option go_error) * World;
}.

Section DoReq.
Context {F : Type} `{Float64Ops F} `{Externals} `{!RateWait F}
  `{!RequestExternals} `{!DecodeExternals}.

(** DecodeResponse for any [out]; [None] is a nil [out]. *)
Definition DecodeResponse_any (r : http_Response.t) (out : option Target)
  (w : World) : (list Byte.byte * option go_error) * World :=
  let '(buf, err, w) := json_DecodeInto (default rawMessage out) r w in
  match err with
  | Some e =>
      if decide (length buf = 0)
      then (([], Some "decode empty body"), w)
      else ((buf, Some e), set_Body r buf w)
  | None => ((buf, None), set_Body r buf w)
  end.

Definition DecodeResOrErrRes (r : http_Response.t)
  (goodOut badOut : option Target) (w : World)
  : (list Byte.byte * option go_error) * World :=
  if decide (400 ≤ http_Response.StatusCode r)%Z
  then DecodeResponse_any r badOut w
  else DecodeResponse_any r goodOut w.

(** DoAndDecode, on the request the state holds. *)
Definition DoAndDecode (out errRes : option Target) : M F outcome :=
  o <- Client.Do ;;
  match o.2 with
  | Some err => ret (None, Some err)
  | None =>
      match o.1 with
      | None => panic            (* r.StatusCode on a nil response *)
      | Some res =>
          s <- get ;;
          let '(_, derr, w) := DecodeResOrErrRes res out errRes (world s) in
          modify (λ s, set_world s w) ;;;
          match derr with
          | Some err => ret (Some res, Some err)
          | None => ret (Some res, None)
          end
      end
  end.

(** A request model as the package means it to be written: a struct that
    embeds ReqHeaders and takes Header() from it. [model_Validate] is what
    its Validate() returns, [model_uri host] is
    [r.Path().WithBaseURL(host).String()], the rendering of path.go being
    taken as given, and [model_value] is the model as json.Marshal sees
    it. *)
Record RequestModel := {
  model_headers : ReqHeaders;
  model_Validate : option go_error;
  model_uri : string → string;
  model_value : Value;
}.

(** DoReq. It builds the request and puts it in the place of the state's
    request. The result is, first, the model's ReqHeaders afterwards (the
    map that Header() returns is the model's own, and Request adds to it)
    and, second, the dispatch, [None] for a panic. *)
Definition DoReq (ctx : context_Context) (method : string) (r : RequestModel)
  (out errRes : option Target) (s : State F)
  : ReqHeaders * option (outcome * State F) :=
  match model_Validate r with
  | Some err =>
      (model_headers r,
       Some ((None, Some (ErrInvalidRequest +:+ ": " +:+ err)), s))
  | None =>
      let c := client s in
      let uri := model_uri r (Host c) in
      let '(header, rh) := ReqHeaders.Header (model_headers r) in
      let '(req, err, callers) :=
        Request c (world s) ctx method uri header (body_value (model_value r)) in
      let rh' := {| ReqID := ReqID rh; h := callers |} in
      match err with
      | Some e => (rh', Some ((None, Some e), s))
      | None =>
          match req with
          | None => (rh', None)
          | Some req => (rh', DoAndDecode out errRes (set_request s req))
          end
      end
  end.
End DoReq.

(** *** The example package *)

Module example.
Record Property := {
  ID : string;
  Street : string;
  City : string;
  State : string;
  Zip : string;
}.

(** StorePropertyReq: the embedded ReqHeaders and the property struct,
    which has the fields of Property. *)
Record StorePropertyReq := {
  headers : ReqHeaders;
  property : Property;
}.

Record APIError := { Code : Z; Message : string; Type_ : string }.
Record ErrorResponse := { apiError : APIError }.

Definition ErrStreetRequired : go_error := "missing street".

Definition NewStorePropertyReq (p : Property) : StorePropertyReq :=
  {| headers := {| ReqID := ""; h := None |};
     property := {| ID := ID p; Street := Street p; City := City p;
                    State := State p; Zip := Zip p |} |}.

Definition Validate (req : StorePropertyReq) : option go_error :=
  if decide (Street (property req) = "") then Some ErrStreetRequired
  else if decide (City (property req) = "") then Some "missing city"
  else if decide (State (property req) = "") then Some "missing state"
  else if decide (Zip (property req) = "") then Some "missing zip"
  else None.

(** ErrorResponse.Error; %d prints the code in decimal. *)
Definition Error (e : ErrorResponse) : string :=
  if decide (Message (apiError e) = "") then ""
  else "RPM error: " +:+ Type_ (apiError e) +:+ " ("
         +:+ pretty (Code (apiError e)) +:+ ") " +:+ Message (apiError e).

Definition IsZero (e : ErrorResponse) : bool :=
  bool_decide (Code (apiError e) = 0%Z)
  && bool_decide (Message (apiError e) = "")
  && bool_decide (Type_ (apiError e) = "").

(** ErrorOrNil: nil, or the response itself as an error. *)
Definition ErrorOrNil (e : ErrorResponse) : option ErrorResponse :=
  if IsZero e then None else Some e.
End example.

(** *** Concrete surroundings for the request builder *)

Module DemoRequest.
Import Demo.

(** Bodies: a reader is a unit, a value is a boolean of which only [true]
    can be encoded. A request cannot be built for the method "BAD METHOD". *)
Definition marshal (v : bool) : list Byte.byte + go_error :=
  if v then inl [] else inr "json: unsupported value".

Definition newRequest (ctx : bool) (method url : string)
  : http_Request.t + go_error :=
  if String.eqb method "BAD METHOD"
  then inr "net/http: invalid method"
  else inl {| http_Request.Method := if decide (method = "") then "GET" else method;
              http_Request.URL := {| url_URL.Path := url; url_URL.RawQuery := "" |};
              http_Request.Header := ∅;
              http_Request.ctx := ctx |}.

Lemma newRequest_ok (ctx : bool) (method url : string) (req : http_Request.t) :
  newRequest ctx method url = inl req →
  http_Request.Method req = (if decide (method = "") then "GET" else method)
  ∧ http_Request.Header req = ∅
  ∧ http_Request.ctx req = ctx.
Proof.
  unfold newRequest. destruct (String.eqb method "BAD METHOD"); [done|].
  by intros [= <-].
Qed.

#[export] Instance requestExternals : RequestExternals := {
  Reader := unit;
  Value := bool;
  json_Marshal := marshal;
  http_NewRequestWithContext := newRequest;
  NewRequest_ok := newRequest_ok;
}.

#[export] Instance decodeExternals : DecodeExternals := {
  Target := unit;
  rawMessage := tt;
  json_DecodeInto := λ _ _ w, (([], Some "EOF"), w);
}.

(** A context that is not cancelled. *)
Definition background : context_Context := false.

Definition encodable : Value := true.
Definition unencodable : Value := false.
Definition reader : Reader := tt.

(** A valid model with a ReqID and no header map, and an invalid one. *)
Definition model (valid : bool) : RequestModel :=
  {| model_headers := {| ReqID := "abc"; h := None |};
     model_Validate := if valid then None else Some "missing street";
     model_uri := λ host, host +:+ "/property";
     model_value := encodable |}.

(** The request a dispatch starts from is cancelled. *)
Definition cancelledRequest : State float :=
  start (mkClient noHeaders (scripted [] tooMany)
           (NewRateLimiter 100%float []) 2) (get_ true).
End DemoRequest.

(** * Properties *)

(** ** The limiter *)

Section LimiterFacts.
Context {F : Type} `{Float64Ops F} `{Types} `{!RateWait F}.

Lemma Limit_SetLimit (rl : RateLimiter F) (x : F) :
    RateLimiter.Limit (RateLimiter.SetLimit x (Some rl)) = x.
Proof. unfold RateLimiter.SetLimit. by destruct (Limiter rl). Qed.

Lemma SlowDown_backed (l : rate_Limiter F) (p : F) :
    RateLimiter.SlowDown (backed l p)
    = backed (rate_SetLimit l (fmul (limit l) (fsub fone p))) p.
Proof. reflexivity. Qed.

Lemma SpeedUp_backed (l : rate_Limiter F) (p : F) :
    RateLimiter.SpeedUp (backed l p)
    = backed (rate_SetLimit l (fdiv (limit l) (fsub fone p))) p.
Proof. reflexivity. Qed.

(** C6. Every operation on an absent limiter, be it a nil pointer or a
    limiter without a backing bucket, returns at once and changes
    nothing: Wait yields no error and leaves the world as it is, Limit
    yields MaxAllowedCallsPerSecond, Burst the default, and SetLimit on
    nil, SlowDown, SpeedUp and SetBurst leave the limiter as it was. *)
Theorem absent_limiter_is_transparent
    (p x : F) (b : Z) (ctx : context_Context) (w : World) :
    RateLimiter.Wait (F:=F) None ctx w = (None, w)
    ∧ RateLimiter.Wait (unset p) ctx w = (None, w)
    ∧ RateLimiter.Limit (F:=F) None = MaxAllowedCallsPerSecond
    ∧ RateLimiter.Limit (unset p) = MaxAllowedCallsPerSecond
    ∧ RateLimiter.SetLimit x None = None
    ∧ RateLimiter.SlowDown (F:=F) None = None
    ∧ RateLimiter.SlowDown (unset p) = unset p
    ∧ RateLimiter.SpeedUp (F:=F) None = None
    ∧ RateLimiter.SpeedUp (unset p) = unset p
    ∧ RateLimiter.SetBurst (F:=F) b None = None
    ∧ RateLimiter.SetBurst b (unset p) = unset p
    ∧ RateLimiter.Burst (F:=F) None = DefaultBurst
    ∧ RateLimiter.Burst (unset p) = DefaultBurst.
Proof. repeat split. Qed.

(** C7. RateLimiter.Do is Wait followed by the operation. When Wait
    fails, its error is returned and the operation has not run; when
    Wait succeeds, the operation has run exactly once, on the world Wait
    left, and its error or nil is returned. *)
Theorem Do_is_Wait_then_operation
    (r : option (RateLimiter F)) (ctx : context_Context)
    (doFn : World → option go_error * World) (st : RateLimiter.Run) :
    match RateLimiter.Wait r ctx (RateLimiter.run_world st) with
    | (Some err, w) =>
        RateLimiter.Do r ctx doFn st
        = (Some err, {| RateLimiter.run_world := w;
                        RateLimiter.invoked := RateLimiter.invoked st |})
    | (None, w) =>
        RateLimiter.Do r ctx doFn st
        = ((doFn w).1, {| RateLimiter.run_world := (doFn w).2;
                          RateLimiter.invoked := S (RateLimiter.invoked st) |})
    end.
Proof.
    unfold RateLimiter.Do, RateLimiter.invoke.
    destruct (RateLimiter.Wait r ctx _) as [[err|] w]; [done|]; simpl.
    by destruct (doFn w) as [[e|] w'].
Qed.

(** C8. On a non-nil limiter SetLimit(x) makes Limit() return x; when
    the limiter had no backing bucket, SetLimit builds one with rate x
    and the default capacity, so that Burst() returns 1. *)
Theorem SetLimit_replaces_rate_and_builds_bucket
    (rl : RateLimiter F) (p x : F) :
    RateLimiter.Limit (RateLimiter.SetLimit x (Some rl)) = x
    ∧ RateLimiter.SetLimit x (unset p)
      = backed (rate_NewLimiter x DefaultBurst) p
    ∧ RateLimiter.Burst (RateLimiter.SetLimit x (unset p)) = 1%Z.
Proof. split; [apply Limit_SetLimit | done]. Qed.
End LimiterFacts.

(** ** The rate over the reals and over binary64 *)



(** C2, as amended. Over the reals, for a rate r0 > 0 and a change
    percent p in (0,1), SlowDown sets the rate to r0 (1 - p) and a
    following SpeedUp restores the limiter, so that Limit() is r0 again,
    exactly. *)
Theorem SlowDown_then_SpeedUp_restores_exact_rate
  (l : rate_Limiter R) (p : R) :
  (0 < limit l)%R → (0 < p < 1)%R →
  RateLimiter.Limit (RateLimiter.SlowDown (backed l p)) = (limit l * (1 - p))%R
  ∧ RateLimiter.SpeedUp (RateLimiter.SlowDown (backed l p)) = backed l p
  ∧ RateLimiter.Limit (RateLimiter.SpeedUp (RateLimiter.SlowDown (backed l p)))
    = limit l.
Proof.
  intros Hl Hp. rewrite SlowDown_backed, SpeedUp_backed.
  assert (limit l * (1 - p) / (1 - p) = limit l)%R as Heq by (field; lra).
  split; [done|]. simpl. rewrite Heq. split; [|done].
  by destruct l.
Qed.

Lemma SlowDown_then_SpeedUp_restores_exact_rate_witness :
  let l := {| limit := 100%R; burst := 1 |} in
  let p := (1 / 10)%R in
  RateLimiter.Limit (RateLimiter.SpeedUp (RateLimiter.SlowDown (backed l p)))
  = 100%R.
Proof.
  intros l p.
  apply (SlowDown_then_SpeedUp_restores_exact_rate l p); simpl; unfold p; lra.
Defined.

(** C2 fails over binary64: from the rate 12345678 with the default change
    percent 0.1, SlowDown and then SpeedUp leave a rate that is off by
    more than 1e-9. *)
Lemma SlowDown_then_SpeedUp_float64_exceeds_tolerance :
  let r := NewRateLimiter (F:=float) 12345678%float [] in
  let r' := RateLimiter.SpeedUp (RateLimiter.SlowDown r) in
  r = backed {| limit := 12345678%float; burst := 1 |} fTenth
  ∧ PrimFloat.ltb 0 (RateLimiter.Limit r) = true
  ∧ PrimFloat.ltb 0 fTenth = true ∧ PrimFloat.ltb fTenth 1 = true
  ∧ RateLimiter.Limit r' = 0x1.78c29c0000001p+23%float
  ∧ PrimFloat.ltb tolerance
      (PrimFloat.abs (PrimFloat.sub (RateLimiter.Limit r') 12345678)) = true.
Proof. vm_compute. repeat split. Qed.

(** Over binary64 a rate near the bottom of the range is not restored
    either: SlowDown rounds it to zero and SpeedUp leaves it there. *)
Example SlowDown_then_SpeedUp_float64_underflow :
  let r := NewRateLimiter (F:=float) 0x1p-1074%float
             [RateLimitChangePercent 0.5%float] in
  PrimFloat.ltb 0 (RateLimiter.Limit r) = true
  ∧ RateLimiter.Limit (RateLimiter.SpeedUp (RateLimiter.SlowDown r)) = 0%float.
Proof. vm_compute. repeat split. Qed.





(** ** Request headers *)

Section HeaderFacts.
Context `{Externals}.

Lemma Header_Add_lookup_eq (m : http_Header) (k x : string) :
  Header_Add m k x !!! CanonicalMIMEHeaderKey k
  = (m !!! CanonicalMIMEHeaderKey k) ++ [x].
Proof. unfold Header_Add. by rewrite lookup_total_insert_eq. Qed.

Lemma Header_Add_lookup_ne (m : http_Header) (k x K : string) :
  CanonicalMIMEHeaderKey k ≠ K → Header_Add m k x !!! K = m !!! K.
Proof. intros Hne. unfold Header_Add. by rewrite lookup_total_insert_ne. Qed.

Lemma Header_with_ReqID (r : ReqHeaders) :
  ReqID r ≠ "" →
  ReqHeaders.Header r
  = (Some (Header_Add (default ∅ (h r)) HeaderReqID (ReqID r)),
     {| ReqID := ReqID r;
        h := Some (Header_Add (default ∅ (h r)) HeaderReqID (ReqID r)) |}).
Proof.
  intros Hid. unfold ReqHeaders.Header, ReqHeaders.AddHeader.
  destruct (decide (ReqID r = "")) as [|_]; [done|].
  by destruct (h r).
Qed.

Lemma Header_without_ReqID (r : ReqHeaders) :
  ReqID r = "" → ReqHeaders.Header r = (h r, r).
Proof.
  intros Hid. unfold ReqHeaders.Header.
  by destruct (decide (ReqID r = "")).
Qed.

Lemma Headers_S (n : nat) (r : ReqHeaders) :
  ReqHeaders.Headers (S n) r = (ReqHeaders.Header (ReqHeaders.Headers n r)).2.
Proof. reflexivity. Qed.

Lemma Headers_ReqID (n : nat) (r : ReqHeaders) :
  ReqID (ReqHeaders.Headers n r) = ReqID r.
Proof.
  induction n as [|n IH]; [done|].
  rewrite Headers_S.
  destruct (decide (ReqID (ReqHeaders.Headers n r) = "")) as [He|Hne].
  - by rewrite Header_without_ReqID.
  - by rewrite Header_with_ReqID.
Qed.

Lemma Headers_values (n : nat) (r : ReqHeaders) :
  ReqID r ≠ "" →
  default ∅ (h (ReqHeaders.Headers n r)) !!! CanonicalMIMEHeaderKey HeaderReqID
  = (default ∅ (h r) !!! CanonicalMIMEHeaderKey HeaderReqID)
      ++ replicate n (ReqID r).
Proof.
  intros Hid. induction n as [|n IH].
  - simpl. by rewrite app_nil_r.
  - pose proof (Headers_ReqID n r) as Hn.
    rewrite Headers_S, Header_with_ReqID by congruence.
    cbn [snd h default from_option Datatypes.id].
    rewrite Header_Add_lookup_eq, IH, Hn, replicate_S_end.
    by rewrite app_assoc.
Qed.

(** C9. With a non-empty ReqID every call of Header() appends one more
    copy of ReqID under the (canonical) X-Request-ID key of the receiver's
    own map, which is the map it returns: the call number n + 1 returns a
    map that holds, after the values the key had at the start, n + 1
    copies of ReqID. So Header() is not idempotent: the next call returns
    a different map. *)
Theorem Header_appends_ReqID_on_every_call (r : ReqHeaders) (n : nat) :
  ReqID r ≠ "" →
  let K := CanonicalMIMEHeaderKey HeaderReqID in
  ∃ m : http_Header,
    (ReqHeaders.Header (ReqHeaders.Headers n r)).1 = Some m
    ∧ h (ReqHeaders.Headers (S n) r) = Some m
    ∧ m !!! K = (default ∅ (h r) !!! K) ++ replicate (S n) (ReqID r)
    ∧ (ReqHeaders.Header (ReqHeaders.Headers (S n) r)).1 ≠ Some m.
Proof.
  intros Hid K.
  assert (∀ j, ReqID (ReqHeaders.Headers j r) ≠ "") as Hj
    by (intros j; by rewrite Headers_ReqID).
  pose proof (Headers_values (S n) r Hid) as HS.
  pose proof (Headers_values (S (S n)) r Hid) as HSS.
  fold K in HS, HSS.
  rewrite (Headers_S (S n)) in HSS.
  rewrite (Header_with_ReqID _ (Hj (S n))) in HSS |- *.
  rewrite Headers_S in HS, HSS |- *.
  rewrite (Header_with_ReqID _ (Hj n)) in HS, HSS |- *.
  cbn [fst snd h default from_option Datatypes.id] in HS, HSS |- *.
  eexists. split; [done|]. split; [done|]. split; [exact HS|].
  intros [= Heq]. cbn [ReqID] in HSS. rewrite Heq, HS in HSS.
  apply (f_equal length) in HSS.
  rewrite !length_app, !length_replicate in HSS. lia.
Qed.
End HeaderFacts.

(** ** Counting header values *)

Section CountingFacts.
Context `{Externals}.

Lemma occurrences_app (v : string) (l1 l2 : list string) :
  occurrences v (l1 ++ l2) = occurrences v l1 + occurrences v l2.
Proof. unfold occurrences. by rewrite filter_app, length_app. Qed.

Lemma occurrences_singleton (v x : string) :
  occurrences v [x] = if decide (x = v) then 1 else 0.
Proof.
  unfold occurrences. rewrite filter_cons, filter_nil.
  by destruct (decide (x = v)).
Qed.

Lemma adds_cons (kv : string * list string) (l : list (string * list string))
  (K v : string) :
  adds (kv :: l) K v
  = (if decide (CanonicalMIMEHeaderKey kv.1 = K) then occurrences v kv.2 else 0)
    + adds l K v.
Proof. reflexivity. Qed.

Lemma adds_perm (l1 l2 : list (string * list string)) (K v : string) :
  l1 ≡ₚ l2 → adds l1 K v = adds l2 K v.
Proof.
  induction 1 as [|x l l' _ IH|x y l|l l' l'' _ IH1 _ IH2];
    rewrite ?adds_cons; [done|by rewrite IH|lia|congruence].
Qed.

Lemma Header_Add_count (m : http_Header) (k x K v : string) :
  count_at (Header_Add m k x) K v
  = count_at m K v
    + (if decide (CanonicalMIMEHeaderKey k = K ∧ x = v) then 1 else 0).
Proof.
  unfold count_at. destruct (decide (CanonicalMIMEHeaderKey k = K)) as [<-|Hne].
  - rewrite Header_Add_lookup_eq, occurrences_app, occurrences_singleton.
    destruct (decide (x = v)); destruct (decide _); try lia; intuition congruence.
  - rewrite Header_Add_lookup_ne by done.
    destruct (decide _); [intuition congruence|lia].
Qed.

(** The innermost loop of reqWithHeaders. *)
Lemma add_values_count `{Types} (req : http_Request.t) (k : string)
  (vs : list string) (K v : string) :
  let req' := foldl (λ req x,
                http_Request.withHeader req
                  (Header_Add (http_Request.Header req) k x)) req vs in
  count_at (http_Request.Header req') K v
  = count_at (http_Request.Header req) K v
    + (if decide (CanonicalMIMEHeaderKey k = K) then occurrences v vs else 0)
  ∧ req' = http_Request.withHeader req (http_Request.Header req').
Proof.
  revert req. induction vs as [|x vs IH]; intros req; cbn [foldl].
  - split; [destruct (decide _); unfold occurrences; simpl; lia|by destruct req].
  - destruct (IH (http_Request.withHeader req
                    (Header_Add (http_Request.Header req) k x))) as [IHc IHf].
    split.
    + rewrite IHc. cbn [http_Request.Header http_Request.withHeader].
      rewrite Header_Add_count.
      change (x :: vs) with ([x] ++ vs).
      rewrite occurrences_app, occurrences_singleton.
      destruct (decide (CanonicalMIMEHeaderKey k = K));
        destruct (decide (x = v)); destruct (decide (_ ∧ _)); (try lia; intuition congruence).
    + rewrite IHf at 1. reflexivity.
Qed.

(** The loop over the entries of one map. *)
Lemma add_entries_count (req : http_Request.t)
  (entries : list (string * list string)) (K v : string) :
  let req' := foldl (λ req kvs,
                foldl (λ req x,
                  http_Request.withHeader req
                    (Header_Add (http_Request.Header req) kvs.1 x))
                  req kvs.2) req entries in
  count_at (http_Request.Header req') K v
  = count_at (http_Request.Header req) K v + adds entries K v
  ∧ req' = http_Request.withHeader req (http_Request.Header req').
Proof.
  revert req. induction entries as [|kv entries IH]; intros req; cbn [foldl].
  - split; [unfold adds; simpl; lia|by destruct req].
  - destruct (add_values_count req kv.1 kv.2 K v) as [Hc Hf].
    cbv zeta in Hc, Hf.
    set (req1 := foldl _ req kv.2) in *.
    destruct (IH req1) as [IHc IHf]. split.
    + rewrite IHc, Hc, adds_cons. lia.
    + rewrite IHf at 1. rewrite Hf. reflexivity.
Qed.

(** reqWithHeaders with one map: every stored value is added once under
    the canonical form of its key, and nothing but the headers changes. *)
Lemma reqWithHeaders_count (w : World) (req : http_Request.t)
  (hd : option http_Header) (K v : string) :
  count_at (http_Request.Header (reqWithHeaders w req [hd])) K v
  = count_at (http_Request.Header req) K v + stored hd K v
  ∧ reqWithHeaders w req [hd]
    = http_Request.withHeader req
        (http_Request.Header (reqWithHeaders w req [hd])).
Proof.
  unfold reqWithHeaders, stored. cbn [foldl].
  rewrite <- (adds_perm _ _ K v (rangeOrder_perm w (default ∅ hd))).
  apply add_entries_count.
Qed.

(** Adding a value to a map adds it to what a pass over the map adds. *)
Lemma stored_Header_Add (m : http_Header) (k x K v : string) :
  stored (Some (Header_Add m k x)) K v
  = stored (Some m) K v
    + (if decide (CanonicalMIMEHeaderKey (CanonicalMIMEHeaderKey k) = K ∧ x = v)
       then 1 else 0).
Proof.
  unfold stored, Header_Add. cbn [default from_option Datatypes.id].
  set (ck := CanonicalMIMEHeaderKey k).
  destruct (m !! ck) as [old|] eqn:Hm.
  - rewrite (lookup_total_correct _ _ _ Hm).
    rewrite <- (insert_delete_eq m ck (old ++ [x])).
    rewrite (adds_perm _ _ K v
               (map_to_list_insert (delete ck m) ck (old ++ [x])
                  (lookup_delete_eq m ck))).
    rewrite <- (adds_perm _ _ K v (map_to_list_delete m ck old Hm)).
    rewrite !adds_cons. cbn [fst snd].
    rewrite occurrences_app, occurrences_singleton.
    destruct (decide (CanonicalMIMEHeaderKey ck = K));
      destruct (decide (x = v)); destruct (decide (_ ∧ _)); (try lia; intuition congruence).
  - rewrite lookup_total_alt, Hm.
    change (default inhabitant None ++ [x]) with [x].
    rewrite (adds_perm _ _ K v (map_to_list_insert m ck _ Hm)).
    rewrite adds_cons. cbn [fst snd].
    rewrite occurrences_singleton.
    destruct (decide (CanonicalMIMEHeaderKey ck = K));
      destruct (decide (x = v)); destruct (decide (_ ∧ _)); (try lia; intuition congruence).
Qed.

Lemma stored_empty (K v : string) : stored (Some ∅) K v = 0.
Proof. unfold stored. cbn. by rewrite map_to_list_empty. Qed.

Lemma stored_nil (K v : string) : stored None K v = 0.
Proof. unfold stored. cbn. by rewrite map_to_list_empty. Qed.
End CountingFacts.

(** ** The dispatcher *)

Section DispatchFacts.
Context {F : Type} `{Float64Ops F} `{Externals} `{!RateWait F}.

Ltac run := unfold bind, get, modify, ret, panic; cbn beta iota.

(* closes a case whose hypotheses about [reqid_entry] contradict each other *)
Ltac absurd_entry :=
  exfalso; unfold reqid_entry in *; cbn [ReqID] in *;
  repeat match goal with H : _ ∧ _ |- _ => destruct H end;
  subst; intuition.

Lemma same_config_refl (c : Client F) : same_config c c.
Proof. by repeat split. Qed.

Lemma same_config_trans (c1 c2 c3 : Client F) :
  same_config c1 c2 → same_config c2 c3 → same_config c1 c3.
Proof. unfold same_config. intros (?&?&?&?) (?&?&?&?). repeat split; congruence. Qed.

Lemma httpClient_same_config (c c' : Client F) :
  same_config c c' → Client.httpClient_ c' = Client.httpClient_ c.
Proof. intros (Ht&_). unfold Client.httpClient_. by rewrite Ht. Qed.

(** What logRqRs does with an outcome that has a response or an error:
    one record goes to the logger, at the level [severity], with the
    request's method, path, headers and query, and with the error or the
    response's status and headers. *)
Lemma logRqRs_spec (req : http_Request.t) (o : outcome) (s : State F) :
  o ≠ (None, None) →
  ∃ (rec : LogRecord) (s' : State F),
    Client.logRqRs req o.1 o.2 s = Some (tt, s')
    ∧ client s' = client s ∧ request s' = request s ∧ sent s' = sent s
    ∧ logged s' = logged s ++ [rec]
    ∧ level rec = severity o
    ∧ sink rec = sLogger_log (log (client s))
    ∧ match o with
      | (_, Some e) => fields rec = req_error (reqFields_of req) e
      | (Some r, None) =>
          ∃ bf : bodyField,
            fields rec = req_res (reqFields_of req)
                           {| f_status := http_Response.Status r;
                              f_resheader := http_Response.Header r;
                              f_body := bf |}
      | (None, None) => False
      end.
Proof.
  intros Ho. destruct o as [[r|] [e|]]; [| | |done];
    unfold Client.logRqRs; run; cbn [fst snd].
  1,3: by (do 2 eexists; split; [reflexivity|]; repeat split).
  destruct (DecodeResponse r (world s)) as [[[bodyBytes out] derr] w].
  unfold severity.
  destruct (decide (400 ≤ http_Response.StatusCode r)%Z);
    (do 2 eexists; split; [reflexivity|]; repeat split; by eexists).
Qed.

Lemma logRqRs_nil_nil (req : http_Request.t) (s : State F) :
  Client.logRqRs req None None s = None.
Proof. reflexivity. Qed.

(** C4, at the failing input. For a response with status 500 and no
    error logRqRs makes one call to the logger, with the request's method,
    path, headers and query and the response's status and headers, and it
    makes it at the level Warn, not Error: every status from 400 on is
    logged as a warning, and Error is kept for transport errors. *)
Theorem logRqRs_logs_status_500_as_warning
  (s : State F) (req : http_Request.t) (status : string) (hd : http_Header) :
  let res := {| http_Response.Status := status;
                http_Response.StatusCode := 500;
                http_Response.Header := hd |} in
  ∃ (rec : LogRecord) (s' : State F) (bf : bodyField),
    Client.logRqRs req (Some res) None s = Some (tt, s')
    ∧ logged s' = logged s ++ [rec]
    ∧ level rec = LevelWarn
    ∧ fields rec = req_res (reqFields_of req)
                     {| f_status := status; f_resheader := hd; f_body := bf |}.
Proof.
  intros res.
  destruct (logRqRs_spec req (Some res, None) s)
    as (rec & s' & Hlog & _ & _ & _ & Hl & Hlev & _ & bf & Hf); [done|].
  by exists rec, s', bf.
Qed.

(** An attempt that Wait refuses: the error is returned, nothing is sent
    or logged, the request and the client are untouched. *)
Lemma do_refused (s : State F) (e : go_error) (w : World) :
  RateLimiter.Wait (rateLimiter (client s)) (http_Request.ctx (request s)) (world s)
  = (Some e, w) →
  ∃ s', Client.do s = Some ((None, Some e), s')
    ∧ client s' = client s ∧ request s' = request s
    ∧ sent s' = sent s ∧ logged s' = logged s.
Proof.
  intros HW. unfold Client.do; run. rewrite HW. run.
  eexists; split; [reflexivity|]. by repeat split.
Qed.

(** An attempt that Wait lets through. *)
Lemma do_sent (s : State F) (w1 w2 : World) (o : outcome) :
  RateLimiter.Wait (rateLimiter (client s)) (http_Request.ctx (request s)) (world s)
  = (None, w1) →
  Client.httpClient_ (client s) (attempt_request s w1) w1 = (o, w2) →
  o ≠ (None, None) →
  ∃ (s' : State F) (rec : LogRecord),
    Client.do s = Some (o, s')
    ∧ request s' = attempt_request s w1
    ∧ sent s' = sent s ++ [(attempt_request s w1, o)]
    ∧ logged s' = logged s ++ [rec] ∧ level rec = severity o
    ∧ reqHeaders (client s') = bumped (reqHeaders (client s))
    ∧ rateLimiter (client s')
      = (if is429 o then RateLimiter.SlowDown (rateLimiter (client s))
         else rateLimiter (client s))
    ∧ same_config (client s) (client s').
Proof.
  intros HW HT Ho. unfold Client.do; run. rewrite HW. run.
  unfold Client.Header; run. cbn [client set_world].
  unfold attempt_request in *.
  unfold bumped.
  destruct (ReqHeaders.Header (reqHeaders (client s))) as [hd rh] eqn:HH.
  cbn [fst snd] in *.
  destruct (h (reqHeaders (client s))) as [m|] eqn:Hh;
    cbn [request world set_request set_world set_client client];
    rewrite HT; cbn beta iota;
    match goal with
    | |- context [Client.logRqRs ?rq _ _ ?st] =>
        destruct (logRqRs_spec rq o st Ho)
          as (rec & s1 & Hlog & Hc & Hr & Hs & Hl & Hlev & _);
        rewrite Hlog
    end;
    cbn [client request sent logged add_sent set_world set_client set_request] in *;
    destruct (is429 o);
    (eexists _, rec; split; [reflexivity|]);
    cbn [client request sent logged set_client with_rateLimiter with_reqHeaders
         reqHeaders rateLimiter];
    rewrite ?Hc, ?Hr, ?Hs, ?Hl;
    cbn [reqHeaders rateLimiter with_reqHeaders];
    repeat split; try done;
    unfold same_config; cbn; by rewrite ?Hc.
Qed.


Lemma attempt_request_ctx (s : State F) (w : World) :
  http_Request.ctx (attempt_request s w) = http_Request.ctx (request s).
Proof.
  unfold attempt_request.
  destruct (reqWithHeaders_count w (request s)
              (ReqHeaders.Header (reqHeaders (client s))).1 "" "") as [_ ->].
  reflexivity.
Qed.

(** A transport that yields neither a response nor an error makes
    logRqRs, and with it the attempt, panic. *)
Lemma do_nil_nil (s : State F) (w1 w2 : World) :
  RateLimiter.Wait (rateLimiter (client s)) (http_Request.ctx (request s)) (world s)
  = (None, w1) →
  Client.httpClient_ (client s) (attempt_request s w1) w1 = ((None, None), w2) →
  Client.do s = None.
Proof.
  intros HW HT. unfold Client.do; run. rewrite HW. run.
  unfold Client.Header; run. cbn [client set_world].
  unfold attempt_request in *.
  destruct (ReqHeaders.Header (reqHeaders (client s))) as [hd rh] eqn:HH.
  cbn [fst snd] in *.
  destruct (h (reqHeaders (client s))) as [m|] eqn:Hh;
    cbn [request world set_request set_world set_client client];
    by rewrite HT.
Qed.

Lemma overloaded_inv (o : outcome) :
  overloaded o = true →
  ∃ res, o = (Some res, None)
         ∧ http_Response.StatusCode res = StatusTooManyRequests
         ∧ is429 o = true.
Proof.
  destruct o as [[res|] [e|]]; unfold overloaded, is429; cbn [fst snd];
    rewrite ?andb_true_iff, ?bool_decide_eq_true;
    try (intros [? ?]; congruence).
  intros [Hc _]. exists res. by rewrite bool_decide_eq_true.
Qed.


(** The loop stops at an outcome that is not a 429 response. *)
Lemma Do_loop_stops (k : Z) (fuel : nat) (tries : Z) (o : outcome) (s : State F) :
  is429 o = false → Client.Do_loop k fuel tries o s = Some (o, s).
Proof. intros Ho. destruct fuel; cbn [Client.Do_loop]; by rewrite ?Ho. Qed.

(** The fuel never cuts the loop short: any fuel of at least
    [k - tries] gives the result of the loop of the source. *)
Lemma Do_loop_fuel (k : Z) (fuel : nat) (tries : Z) (o : outcome) (s : State F) :
  (Z.to_nat (k - tries) ≤ fuel)%nat →
  Client.Do_loop k fuel tries o s
  = Client.Do_loop k (Z.to_nat (k - tries)) tries o s.
Proof.
  revert tries o s. induction fuel as [|fuel IH]; intros tries o s Hle.
  - by replace (Z.to_nat (k - tries)) with 0%nat by lia.
  - cbn [Client.Do_loop].
    destruct (is429 o && bool_decide (tries < k)%Z) eqn:Hc.
    + pose proof Hc as [_ Hlt%bool_decide_eq_true]%andb_true_iff.
      replace (Z.to_nat (k - tries)) with (S (Z.to_nat (k - (tries + 1)))) by lia.
      cbn [Client.Do_loop]. rewrite Hc.
      unfold bind. destruct (Client.do s) as [[o1 s1]|]; [|done].
      apply IH. lia.
    + destruct (Z.to_nat (k - tries)); cbn [Client.Do_loop]; by rewrite ?Hc.
Qed.


(** *** Persistent overload *)

Section Overload.
Variable c0 : Client F.
Variable ctx0 : context_Context.
Hypothesis Hwait : ∀ (n : nat) (w : World),
  (RateLimiter.Wait (SlowDowns n (rateLimiter c0)) ctx0 w).1 = None.
Hypothesis H429 : ∀ (req : http_Request.t) (w : World),
  overloaded (Client.httpClient_ c0 req w).1 = true.

Lemma do_overloaded (s : State F) (j : nat) :
  same_config c0 (client s) →
  http_Request.ctx (request s) = ctx0 →
  rateLimiter (client s) = SlowDowns j (rateLimiter c0) →
  ∃ (o : outcome) (s' : State F),
    Client.do s = Some (o, s')
    ∧ overloaded o = true
    ∧ sent s' = sent s ++ [(request s', o)]
    ∧ same_config c0 (client s')
    ∧ http_Request.ctx (request s') = ctx0
    ∧ rateLimiter (client s') = SlowDowns (S j) (rateLimiter c0).
Proof using Hwait H429.
  intros Hcfg Hctx Hrl.
  destruct (RateLimiter.Wait (rateLimiter (client s))
              (http_Request.ctx (request s)) (world s)) as [e w1] eqn:HW.
  pose proof (Hwait j (world s)) as He.
  rewrite <- Hrl, <- Hctx, HW in He. cbn [fst] in He. subst e.
  destruct (Client.httpClient_ (client s) (attempt_request s w1) w1)
    as [o w2] eqn:HT.
  pose proof (H429 (attempt_request s w1) w1) as Ho.
  rewrite <- (httpClient_same_config _ _ Hcfg), HT in Ho. cbn [fst] in Ho.
  destruct (overloaded_inv o Ho) as (res & -> & Hcode & H429o).
  destruct (do_sent s w1 w2 _ HW HT ltac:(done))
    as (s' & rec & Hdo & Hreq & Hsent & _ & _ & _ & Hrl' & Hcfg').
  exists (Some res, None), s'. rewrite Hreq.
  split; [done|]. split; [done|]. split; [done|]. split; [|split].
  - by apply (same_config_trans _ (client s)).
  - by rewrite attempt_request_ctx.
  - rewrite Hrl', H429o, Hrl. reflexivity.
Qed.

Lemma Do_loop_overloaded (fuel : nat) (tries : Z) (j : nat)
  (o : outcome) (s : State F) :
  overloaded o = true →
  same_config c0 (client s) →
  http_Request.ctx (request s) = ctx0 →
  rateLimiter (client s) = SlowDowns j (rateLimiter c0) →
  (tries + Z.of_nat fuel = RetriesOn429 c0)%Z →
  last (sent s) = Some (request s, o) →
  ∃ (o' : outcome) (s' : State F),
    Client.Do_loop (RetriesOn429 c0) fuel tries o s = Some (o', s')
    ∧ overloaded o' = true
    ∧ length (sent s') = (length (sent s) + fuel)%nat
    ∧ last (sent s') = Some (request s', o')
    ∧ rateLimiter (client s') = SlowDowns (j + fuel) (rateLimiter c0).
Proof using Hwait H429.
  revert tries j o s.
  induction fuel as [|fuel IH]; intros tries j o s Ho Hcfg Hctx Hrl Hk Hlast.
  - exists o, s. cbn [Client.Do_loop]. unfold ret.
    rewrite !Nat.add_0_r. by repeat split.
  - cbn [Client.Do_loop].
    destruct (overloaded_inv o Ho) as (_ & _ & _ & ->).
    rewrite (bool_decide_eq_true_2 (tries < RetriesOn429 c0)%Z) by lia.
    cbn [andb]. unfold bind.
    destruct (do_overloaded s j Hcfg Hctx Hrl)
      as (o1 & s1 & -> & Ho1 & Hsent1 & Hcfg1 & Hctx1 & Hrl1).
    destruct (IH (tries + 1)%Z (S j) o1 s1) as (o' & s' & -> & ? & Hlen & ? & Hrl');
      try done; [lia|by rewrite Hsent1, last_snoc|].
    exists o', s'. split; [done|]. split; [done|]. split; [|split; [done|]].
    + rewrite Hlen, Hsent1, length_app. simpl. lia.
    + rewrite Hrl'. f_equal. lia.
Qed.
End Overload.

(** C1. With RetriesOn429 = k >= 0, a limiter that lets every attempt
    through and a transport that answers every call with a 429 response
    and no error, Do calls the transport exactly k + 1 times and returns
    the response of the last call with a nil error; each of the k + 1
    attempts has slowed the limiter down. *)
Theorem Do_retries_a_persistent_429_exactly_k_times (s : State F) :
  (0 ≤ RetriesOn429 (client s))%Z →
  (∀ (n : nat) (w : World),
     (RateLimiter.Wait (SlowDowns n (rateLimiter (client s)))
        (http_Request.ctx (request s)) w).1 = None) →
  (∀ (req : http_Request.t) (w : World),
     overloaded (Client.httpClient_ (client s) req w).1 = true) →
  ∃ (res : http_Response.t) (s' : State F),
    Client.Do s = Some ((Some res, None), s')
    ∧ http_Response.StatusCode res = StatusTooManyRequests
    ∧ calls s s' = (Z.to_nat (RetriesOn429 (client s)) + 1)%nat
    ∧ last (sent s') = Some (request s', (Some res, None))
    ∧ rateLimiter (client s')
      = SlowDowns (Z.to_nat (RetriesOn429 (client s)) + 1) (rateLimiter (client s)).
Proof.
  intros Hk Hwait H429. unfold Client.Do; run.
  destruct (do_overloaded (client s) _ Hwait H429 s 0)
    as (o1 & s1 & -> & Ho1 & Hsent1 & Hcfg1 & Hctx1 & Hrl1);
    [apply same_config_refl|done|done|]. run.
  destruct (Do_loop_overloaded (client s) _ Hwait H429
              (Z.to_nat (RetriesOn429 (client s))) 0 1 o1 s1)
    as (o' & s' & -> & Ho' & Hlen & Hlast & Hrl'); try done;
    [lia|by rewrite Hsent1, last_snoc|].
  destruct (overloaded_inv o' Ho') as (res & -> & Hcode & _).
  exists res, s'. split; [done|]. split; [done|]. split; [|split; [done|]].
  - unfold calls. rewrite Hlen, Hsent1, length_app. simpl. lia.
  - rewrite Hrl'. f_equal. lia.
Qed.

(** *** The headers of the outgoing request *)

Lemma total_closed_form (n : nat) (rh : ReqHeaders) (K v : string) :
  total n rh K v = (n * stored (h rh) K v + reqid_copies rh n K v)%nat.
Proof.
  unfold reqid_copies.
  destruct (decide (ReqID rh = "")) as [Hid|Hid].
  - rewrite decide_False by (unfold reqid_entry; tauto).
    assert (bumped rh = rh) as Hb
      by (unfold bumped; rewrite Header_without_ReqID by done; by destruct (h rh)).
    induction n as [|n IH]; [done|]. cbn [total]. rewrite Hb, IH.
    unfold gain. rewrite Header_without_ReqID by done. cbn [fst]. lia.
  - destruct (h rh) as [m|] eqn:Hh.
    + revert rh m Hid Hh. induction n as [|n IH]; intros rh m Hid Hh.
      { cbn. by destruct (decide _). }
      cbn [total triangle]. unfold gain, bumped.
      rewrite Hh, Header_with_ReqID, Hh by done.
      cbn [fst snd default from_option Datatypes.id].
      rewrite (IH _ (Header_Add m HeaderReqID (ReqID rh))) by done.
      cbn [h ReqID]. rewrite !stored_Header_Add.
      destruct (decide (reqid_entry rh K v)) as [He|He];
        destruct (decide (reqid_entry _ K v)) as [He'|He'];
        destruct (decide (_ ∧ _)) as [Hd|Hd];
        try nia; absurd_entry.
    + assert (bumped rh = rh) as Hb by (unfold bumped; by rewrite Hh).
      assert (gain rh K v = if decide (reqid_entry rh K v) then 1 else 0)%nat
        as Hg.
      { unfold gain. rewrite Header_with_ReqID, Hh by done.
        cbn [fst default from_option]. rewrite stored_Header_Add, stored_empty.
        destruct (decide (reqid_entry rh K v)) as [He|He];
          destruct (decide (_ ∧ _)) as [Hd|Hd];
          try lia; absurd_entry. }
      rewrite stored_nil.
      induction n as [|n IH]; [by destruct (decide _)|].
      cbn [total]. rewrite Hb, IH, Hg. destruct (decide _); lia.
Qed.

(** One attempt, as far as the request and the client's headers go. *)
Lemma do_headers (s s' : State F) (o : outcome) (K v : string) :
  Client.do s = Some (o, s') →
  request s' = http_Request.withHeader (request s) (http_Request.Header (request s'))
  ∧ ((is429 o = false ∧ sent s' = sent s
      ∧ reqHeaders (client s') = reqHeaders (client s)
      ∧ count_at (http_Request.Header (request s')) K v
        = count_at (http_Request.Header (request s)) K v)
     ∨ (length (sent s') = S (length (sent s))
        ∧ reqHeaders (client s') = bumped (reqHeaders (client s))
        ∧ count_at (http_Request.Header (request s')) K v
          = (count_at (http_Request.Header (request s)) K v
             + gain (reqHeaders (client s)) K v)%nat)).
Proof.
  intros Hdo.
  destruct (RateLimiter.Wait (rateLimiter (client s))
              (http_Request.ctx (request s)) (world s)) as [[e|] w1] eqn:HW.
  - destruct (do_refused s e w1 HW) as (s0 & Hdo0 & Hcl & Hreq & Hsent & _).
    rewrite Hdo0 in Hdo. injection Hdo as <- <-.
    rewrite Hreq. split; [by destruct (request s)|]. left.
    by rewrite Hsent, Hcl.
  - destruct (Client.httpClient_ (client s) (attempt_request s w1) w1)
      as [o0 w2] eqn:HT.
    assert (o0 = (None, None) ∨ o0 ≠ (None, None)) as [->|Ho]
      by (destruct o0 as [[?|] [?|]]; (by left) || (by right)).
    { by rewrite (do_nil_nil s w1 w2 HW HT) in Hdo. }
    destruct (do_sent s w1 w2 o0 HW HT Ho)
      as (s0 & rec & Hdo0 & Hreq & Hsent & _ & _ & Hrh & _).
    rewrite Hdo0 in Hdo. injection Hdo as <- <-.
    unfold attempt_request in Hreq.
    destruct (reqWithHeaders_count w1 (request s)
                (ReqHeaders.Header (reqHeaders (client s))).1 K v) as [Hc Hf].
    rewrite Hreq. split; [done|]. right.
    rewrite Hsent, length_app. cbn [length]. split; [lia|]. by split.
Qed.

Lemma withHeader_withHeader (r : http_Request.t) (m1 m2 : http_Header) :
  http_Request.withHeader (http_Request.withHeader r m1) m2
  = http_Request.withHeader r m2.
Proof. reflexivity. Qed.

Lemma Do_loop_headers (k : Z) (fuel : nat) (tries : Z) (o o' : outcome)
  (s s' : State F) (K v : string) :
  Client.Do_loop k fuel tries o s = Some (o', s') →
  ∃ n : nat,
    length (sent s') = (length (sent s) + n)%nat
    ∧ request s'
      = http_Request.withHeader (request s) (http_Request.Header (request s'))
    ∧ count_at (http_Request.Header (request s')) K v
      = (count_at (http_Request.Header (request s)) K v
         + total n (reqHeaders (client s)) K v)%nat.
Proof.
  revert tries o s. induction fuel as [|fuel IH]; intros tries o s Hloop.
  - injection Hloop as <- <-. exists 0%nat.
    rewrite !Nat.add_0_r. repeat split. by destruct (request s).
  - cbn [Client.Do_loop] in Hloop.
    destruct (is429 o && bool_decide (tries < k)%Z).
    + unfold bind in Hloop.
      destruct (Client.do s) as [[o1 s1]|] eqn:Hdo; [|done].
      destruct (do_headers s s1 o1 K v Hdo)
        as [Hf [(Hn & Hsent & Hrh & Hc)|(Hlen & Hrh & Hc)]].
      * rewrite Do_loop_stops in Hloop by done. injection Hloop as <- <-.
        exists 0%nat. rewrite Hsent, Hc, !Nat.add_0_r. by repeat split.
      * destruct (IH _ _ _ Hloop) as (n & Hlen' & Hf' & Hc').
        exists (S n). rewrite Hlen', Hlen, Hc', Hc, Hrh. cbn [total].
        split; [lia|]. split; [|lia].
        rewrite Hf' at 1. rewrite Hf at 1. apply withHeader_withHeader.
    + injection Hloop as <- <-. exists 0%nat.
      rewrite !Nat.add_0_r. repeat split. by destruct (request s).
Qed.

(** C10, as amended. A dispatch changes nothing of the caller's request
    but its headers. Every attempt that reaches the transport adds (Add,
    not Set) to the one request every value the client's header map holds
    at that moment, under the canonical form of its key; so after n
    transport calls (n = k + 1 after k retries) a value that the client
    stored c times under keys with the canonical form K has been added
    n c times under K. On top of that come the copies of a non-empty ReqID
    that [c.Header()] files under X-Request-ID on every attempt: n of them
    when the client's map is nil, and 1 + 2 + ... + n when it is not,
    because they then pile up in the client's own map. *)
Theorem Do_adds_client_headers_on_every_attempt
  (s s' : State F) (o : outcome) (K v : string) :
  Client.Do s = Some (o, s') →
  request s'
  = http_Request.withHeader (request s) (http_Request.Header (request s'))
  ∧ count_at (http_Request.Header (request s')) K v
    = (count_at (http_Request.Header (request s)) K v
       + calls s s' * stored (h (reqHeaders (client s))) K v
       + reqid_copies (reqHeaders (client s)) (calls s s') K v)%nat.
Proof.
  unfold Client.Do; run. intros HDo.
  destruct (Client.do s) as [[o1 s1]|] eqn:Hdo; [|done]. run.
  destruct (Do_loop_headers _ _ _ _ _ _ _ K v HDo) as (n & Hlen' & Hf' & Hc').
  destruct (do_headers s s1 o1 K v Hdo)
    as [Hf [(Hn & Hsent & Hrh & Hc)|(Hlen & Hrh & Hc)]].
  - rewrite Do_loop_stops in HDo by done. injection HDo as <- <-.
    unfold calls. rewrite Hsent, Nat.sub_diag, Hc. split; [done|].
    unfold reqid_copies. destruct (decide _); destruct (h _); simpl; lia.
  - split; [rewrite Hf' at 1; rewrite Hf at 1; apply withHeader_withHeader|].
    assert (calls s s' = S n) as -> by (unfold calls; lia).
    pose proof (total_closed_form (S n) (reqHeaders (client s)) K v) as Ht.
    cbn [total] in Ht. rewrite Hc', Hc, Hrh. lia.
Qed.
End DispatchFacts.

(** ** Runs in the concrete surroundings *)

Module Runs.
Import Demo.

(** Three calls of Header() on a receiver with ReqID "abc" and no map. *)
Lemma Header_appends_ReqID_on_every_call_witness :
  let r := {| ReqID := "abc"; h := None |} in
  ∃ m : http_Header,
    (ReqHeaders.Header (ReqHeaders.Headers 2 r)).1 = Some m
    ∧ h (ReqHeaders.Headers 3 r) = Some m
    ∧ m !!! CanonicalMIMEHeaderKey HeaderReqID
      = (default ∅ (h r) !!! CanonicalMIMEHeaderKey HeaderReqID)
          ++ replicate 3 (ReqID r)
    ∧ (ReqHeaders.Header (ReqHeaders.Headers 3 r)).1 ≠ Some m.
Proof.
  intros r.
  apply (Header_appends_ReqID_on_every_call r 2).
  vm_compute. congruence.
Defined.

(** Three calls on a receiver without a map leave three copies. *)
Example Header_three_calls :
  let r := {| ReqID := "abc"; h := None |} in
  CanonicalMIMEHeaderKey HeaderReqID = "X-Request-Id"
  ∧ (default ∅ (h (ReqHeaders.Headers 3 r))) !!! "X-Request-Id"
    = ["abc"; "abc"; "abc"].
Proof. vm_compute. done. Qed.

Lemma Do_retries_a_persistent_429_exactly_k_times_witness :
  ∃ (res : http_Response.t) (s' : State float),
    Client.Do overloadedPeer = Some ((Some res, None), s')
    ∧ http_Response.StatusCode res = StatusTooManyRequests
    ∧ calls overloadedPeer s'
      = (Z.to_nat (RetriesOn429 (client overloadedPeer)) + 1)%nat
    ∧ last (sent s') = Some (request s', (Some res, None))
    ∧ rateLimiter (client s')
      = SlowDowns (Z.to_nat (RetriesOn429 (client overloadedPeer)) + 1)
          (rateLimiter (client overloadedPeer)).
Proof.
  apply (Do_retries_a_persistent_429_exactly_k_times overloadedPeer).
  - vm_compute. congruence.
  - intros n w. by destruct (SlowDowns n _) as [[[?|] ?]|].
  - intros req w. by destruct w.
Defined.

(** The run above: three transport calls, the 429 response returned
    without an error, the rate slowed down three times. *)
Example Do_on_overloadedPeer :
  let r := result (Client.Do overloadedPeer) overloadedPeer in
  r.1 = tooMany
  ∧ length (sent r.2) = 3%nat
  ∧ level <$> logged r.2 = [LevelWarn; LevelWarn; LevelWarn]
  ∧ RateLimiter.Limit (rateLimiter (client r.2))
    = (let q := PrimFloat.sub 1 fTenth in
       PrimFloat.mul (PrimFloat.mul (PrimFloat.mul 100 q) q) q).
Proof. vm_compute. repeat split. Qed.

(** The retry success path: 429 twice, then 200, with two retries. *)
Example Do_retry_success_path :
  let s := start (mkClient noHeaders (scripted [tooMany; tooMany] ok)
                    (NewRateLimiter 100%float []) 2) (get_ false) in
  let r := result (Client.Do s) s in
  r.1 = ok ∧ length (sent r.2) = 3%nat.
Proof. vm_compute. repeat split. Qed.

(** A cancelled context: Wait fails, nothing is sent and nothing logged. *)
Example Do_cancelled :
  let s := start (mkClient noHeaders (scripted [] tooMany)
                    (NewRateLimiter 100%float []) 2) (get_ true) in
  let r := result (Client.Do s) s in
  r.1 = (None, Some "context canceled") ∧ sent r.2 = [] ∧ logged r.2 = [].
Proof. vm_compute. repeat split. Qed.


(** The status 500 of that run is logged as a warning. *)
Example Do_logs_status_500_as_warning :
  let r := result (Client.Do failingPeer) failingPeer in
  r.1 = serverError
  ∧ (λ rec, (level rec, message rec)) <$> logged r.2
    = [(LevelWarn, "[RQ/RS] GET / 500 Internal Server Error")].
Proof. vm_compute. repeat split. Qed.

(** C10 fails there: after one retry, two attempts in all, the value the
    client stored once is on the request five times, not twice. *)
Lemma Do_adds_ReqID_more_than_once_per_attempt :
  let r := result (Client.Do taggedClient) taggedClient in
  Client.Do taggedClient = Some r
  ∧ r.1 = ok
  ∧ calls taggedClient r.2 = 2%nat
  ∧ stored (h (reqHeaders (client taggedClient))) "X-Request-Id" "abc" = 1%nat
  ∧ http_Request.Header (request taggedClient) = ∅
  ∧ http_Request.Header (request r.2) !!! "X-Request-Id"
    = ["abc"; "abc"; "abc"; "abc"; "abc"]
  ∧ count_at (http_Request.Header (request r.2)) "X-Request-Id" "abc" ≠ 2%nat.
Proof. vm_compute. repeat split. congruence. Qed.

Lemma Do_adds_client_headers_on_every_attempt_witness :
  let r := result (Client.Do taggedClient) taggedClient in
  count_at (http_Request.Header (request r.2)) "X-Request-Id" "abc"
  = (count_at (http_Request.Header (request taggedClient)) "X-Request-Id" "abc"
     + calls taggedClient r.2
       * stored (h (reqHeaders (client taggedClient))) "X-Request-Id" "abc"
     + reqid_copies (reqHeaders (client taggedClient)) (calls taggedClient r.2)
         "X-Request-Id" "abc")%nat.
Proof.
  intros r.
  apply (Do_adds_client_headers_on_every_attempt taggedClient r.2 r.1).
  vm_compute. reflexivity.
Defined.

(** A client with two stored headers and no ReqID: after one retry each
    stored value is on the request twice. *)
Example Do_adds_stored_headers_twice :
  let s := start (mkClient {| ReqID := "";
                              h := Some {[ "X-Foo" := ["foo"; "bar"] ]} |}
                    (scripted [tooMany] ok) None 1) (get_ false) in
  let r := result (Client.Do s) s in
  calls s r.2 = 2%nat
  ∧ http_Request.Header (request r.2) !!! "X-Foo" = ["foo"; "bar"; "foo"; "bar"].
Proof. vm_compute. repeat split. Qed.
End Runs.

(** * Further properties *)

(** * Further properties *)

(** ** The limiter: settings, constructor, feedback *)

Section MoreLimiterFacts.
Context {F : Type} `{Float64Ops F} `{Types} `{!RateWait F}.

(** X1. On a limiter with a bucket the rate and the bucket size are set
    and read independently: SetBurst(b) makes Burst() return b and leaves
    Limit() as it was; SetLimit, SlowDown and SpeedUp leave Burst() as it
    was. *)
Theorem rate_and_burst_are_independent
  (l : rate_Limiter F) (p x : F) (b : Z) :
  RateLimiter.Burst (RateLimiter.SetBurst b (backed l p)) = b
  ∧ RateLimiter.Limit (RateLimiter.SetBurst b (backed l p)) = limit l
  ∧ RateLimiter.Burst (RateLimiter.SetLimit x (backed l p)) = burst l
  ∧ RateLimiter.Burst (RateLimiter.SlowDown (backed l p)) = burst l
  ∧ RateLimiter.Burst (RateLimiter.SpeedUp (backed l p)) = burst l.
Proof. by repeat split. Qed.

Lemma offered_keeps_rate (o : RateLimitOption (F:=F)) (l : rate_Limiter F) (p : F) :
  offered o → ∃ l' p', o (backed l p) = backed l' p' ∧ limit l' = limit l.
Proof.
  intros [[q ->]|[b ->]].
  - by exists l, q.
  - by exists (rate_SetBurst l b), p.
Qed.

Lemma options_keep_rate (opts : list (RateLimitOption (F:=F)))
  (l : rate_Limiter F) (p : F) :
  Forall offered opts →
  ∃ l' p', foldl (λ rl option, option rl) (backed l p) opts = backed l' p'
           ∧ limit l' = limit l.
Proof.
  intros Hall. revert l p. induction Hall as [|o opts Ho _ IH]; intros l p.
  - by exists l, p.
  - cbn [foldl]. destruct (offered_keeps_rate o l p Ho) as (l1 & p1 & -> & <-).
    apply IH.
Qed.

Lemma foldl_snoc {A B} (f : A → B → A) (a : A) (l : list B) (x : B) :
  foldl f a (l ++ [x]) = f (foldl f a l) x.
Proof. by rewrite foldl_app. Qed.

(** X2. Whatever options of the package NewRateLimiter is given, it yields
    a limiter with a bucket whose rate is the one asked for; and an option
    given last decides: a final RateLimitBurst(b) makes Burst() return b, a
    final RateLimitChangePercent(q) makes q the step of SlowDown. *)
Theorem NewRateLimiter_keeps_rate_and_last_option_wins
  (lim q : F) (b : Z) (opts : list (RateLimitOption (F:=F))) :
  Forall offered opts →
  (∃ l p, NewRateLimiter lim opts = backed l p ∧ limit l = lim)
  ∧ RateLimiter.Limit (NewRateLimiter lim opts) = lim
  ∧ RateLimiter.Burst (NewRateLimiter lim (opts ++ [RateLimitBurst b])) = b
  ∧ RateLimiter.Limit
      (RateLimiter.SlowDown
         (NewRateLimiter lim (opts ++ [RateLimitChangePercent q])))
    = fmul lim (fsub fone q).
Proof.
  intros Hall. unfold NewRateLimiter.
  destruct (options_keep_rate opts (rate_NewLimiter lim DefaultBurst)
              DefaultCPSChangePercent Hall) as (l & p & Heq & Hl).
  fold (backed (rate_NewLimiter lim DefaultBurst) DefaultCPSChangePercent).
  rewrite !foldl_snoc, Heq. cbn in Hl.
  split; [by exists l, p|]. split; [done|]. split; [done|].
  cbn. by rewrite Hl.
Qed.

(** X3. On an absent limiter Do is the operation alone: it runs once, at
    once, and its error or nil is what Do returns. *)
Theorem Do_on_absent_limiter_runs_the_operation
  (p : F) (ctx : context_Context)
  (doFn : World → option go_error * World) (st : RateLimiter.Run) :
  let ran := ((doFn (RateLimiter.run_world st)).1,
              {| RateLimiter.run_world := (doFn (RateLimiter.run_world st)).2;
                 RateLimiter.invoked := S (RateLimiter.invoked st) |}) in
  RateLimiter.Do (F:=F) None ctx doFn st = ran
  ∧ RateLimiter.Do (unset p) ctx doFn st = ran.
Proof.
  unfold RateLimiter.Do, RateLimiter.invoke. cbn.
  by destruct (doFn (RateLimiter.run_world st)) as [[e|] w].
Qed.
End MoreLimiterFacts.

(** ** The feedback over the reals *)






(** ** request.go: the header methods *)

Section MoreHeaderFacts.
Context `{Externals}.

Lemma Header_Add_fold_lookup (m : http_Header) (k : string) (vals : list string)
  (K : string) :
  foldl (λ m val, Header_Add m k val) m vals !!! K
  = (m !!! K) ++ (if decide (CanonicalMIMEHeaderKey k = K) then vals else []).
Proof.
  revert m. induction vals as [|x vals IH]; intros m; cbn [foldl].
  - destruct (decide _); by rewrite app_nil_r.
  - rewrite IH. destruct (decide (CanonicalMIMEHeaderKey k = K)) as [<-|Hne].
    + by rewrite Header_Add_lookup_eq, <- app_assoc.
    + by rewrite Header_Add_lookup_ne.
Qed.

Lemma Header_Set_fold_lookup (m : http_Header) (k : string) (vals : list string)
  (K : string) :
  foldl (λ m val, Header_Set m k val) m vals !!! K
  = if decide (CanonicalMIMEHeaderKey k = K)
    then match last vals with
         | Some v => [v]
         | None => m !!! K
         end
    else m !!! K.
Proof.
  revert m. induction vals as [|x vals IH]; intros m; cbn [foldl].
  - by destruct (decide _).
  - rewrite IH. destruct (decide (CanonicalMIMEHeaderKey k = K)) as [<-|Hne].
    + destruct vals as [|y vals].
      * unfold Header_Set. cbn [last]. by rewrite lookup_total_insert_eq.
      * rewrite last_cons_cons.
        destruct (last (y :: vals)) eqn:E; [done|]. by apply last_None in E.
    + unfold Header_Set. by rewrite lookup_total_insert_ne.
Qed.

(** X6. AddHeader(key, vals...) leaves the receiver with a map (it makes
    one when there was none) in which the values follow, in their order,
    those the canonical key already had; the values of every other key and
    the ReqID are as before. *)
Theorem AddHeader_appends_in_order
  (r : ReqHeaders) (key : string) (vals : list string) (K : string) :
  let r' := ReqHeaders.AddHeader key vals r in
  ReqID r' = ReqID r
  ∧ is_Some (h r')
  ∧ default ∅ (h r') !!! K
    = (default ∅ (h r) !!! K)
        ++ (if decide (CanonicalMIMEHeaderKey key = K) then vals else []).
Proof.
  unfold ReqHeaders.AddHeader. cbn. split; [done|]. split; [by eexists|].
  rewrite Header_Add_fold_lookup. by destruct (h r).
Qed.

(** X7. SetHeader(key, vals...) leaves under the canonical key the last of
    the values alone, whatever was there before; without values it leaves
    the key as it was; every other key is as before. Get then reads that
    last value. *)
Theorem SetHeader_keeps_the_last_value
  (r : ReqHeaders) (key : string) (vals : list string) (v : string) (K : string) :
  let r' := ReqHeaders.SetHeader key (vals ++ [v]) r in
  ReqID r' = ReqID r
  ∧ default ∅ (h r') !!! K
    = (if decide (CanonicalMIMEHeaderKey key = K) then [v]
       else default ∅ (h r) !!! K)
  ∧ Header_Get (default ∅ (h r')) key = v
  ∧ default ∅ (h (ReqHeaders.SetHeader key [] r)) !!! K = default ∅ (h r) !!! K.
Proof.
  unfold ReqHeaders.SetHeader, Header_Get. cbn. split; [done|].
  rewrite !Header_Set_fold_lookup, last_snoc.
  split; [destruct (h r); by destruct (decide _)|].
  split; [by rewrite decide_True|by destruct (h r)].
Qed.

Lemma Header_Get_app (m : http_Header) (key : string) (old rest : list string) :
  m !!! CanonicalMIMEHeaderKey key = old ++ rest →
  Header_Get m key = match old with
                     | [] => match rest with [] => "" | v :: _ => v end
                     | v :: _ => v
                     end.
Proof. unfold Header_Get. intros ->. by destruct old. Qed.

(** X8. Get sees the first value only. With a non-empty ReqID and no
    value under X-Request-ID at the start, Get of X-Request-ID on the map
    that Header() has been called on n + 1 times is the ReqID, however
    many copies the map holds by then; when the key had a value at the
    start, Get keeps returning that one. *)
Theorem Get_after_Header_calls (r : ReqHeaders) (n : nat) :
  ReqID r ≠ "" →
  Header_Get (default ∅ (h (ReqHeaders.Headers (S n) r))) HeaderReqID
  = match default ∅ (h r) !!! CanonicalMIMEHeaderKey HeaderReqID with
    | [] => ReqID r
    | v :: _ => v
    end.
Proof.
  intros Hid.
  rewrite (Header_Get_app _ _ _ _ (Headers_values (S n) r Hid)).
  by destruct (default ∅ (h r) !!! _).
Qed.
End MoreHeaderFacts.

(** ** request.go: reqWithHeaders *)

Section MoreReqWithHeaders.
Context `{Externals}.

Lemma add_values_prefix (req : http_Request.t) (k : string)
  (vs : list string) (K : string) :
  ∃ added,
    http_Request.Header
      (foldl (λ req x,
         http_Request.withHeader req
           (Header_Add (http_Request.Header req) k x)) req vs) !!! K
    = (http_Request.Header req !!! K) ++ added.
Proof.
  revert req. induction vs as [|x vs IH]; intros req; cbn [foldl].
  - exists []. by rewrite app_nil_r.
  - destruct (IH (http_Request.withHeader req
                    (Header_Add (http_Request.Header req) k x))) as [added ->].
    cbn [http_Request.Header http_Request.withHeader].
    destruct (decide (CanonicalMIMEHeaderKey k = K)) as [<-|Hne].
    + rewrite Header_Add_lookup_eq, <- app_assoc. by eexists.
    + rewrite Header_Add_lookup_ne by done. by eexists.
Qed.

Lemma add_entries_prefix (req : http_Request.t)
  (entries : list (string * list string)) (K : string) :
  ∃ added,
    http_Request.Header
      (foldl (λ req kvs,
         foldl (λ req x,
           http_Request.withHeader req
             (Header_Add (http_Request.Header req) kvs.1 x))
           req kvs.2) req entries) !!! K
    = (http_Request.Header req !!! K) ++ added.
Proof.
  revert req. induction entries as [|kv entries IH]; intros req; cbn [foldl].
  - exists []. by rewrite app_nil_r.
  - destruct (IH (foldl (λ req x,
                    http_Request.withHeader req
                      (Header_Add (http_Request.Header req) kv.1 x))
                    req kv.2)) as [added ->].
    destruct (add_values_prefix req kv.1 kv.2 K) as [added' ->].
    rewrite <- app_assoc. by eexists.
Qed.

Lemma reqWithHeaders_cons (w : World) (req : http_Request.t)
  (hd : option http_Header) (hs : list (option http_Header)) :
  reqWithHeaders w req (hd :: hs)
  = reqWithHeaders w (reqWithHeaders w req [hd]) hs.
Proof. reflexivity. Qed.

(** X9. reqWithHeaders only ever adds: for any number of header maps, nil
    ones included, the values a key of the request had stay where they
    were, in front of what is added; a value is added as often as the maps
    hold it under keys with that canonical form; and nothing but the
    headers of the request changes. *)
Theorem reqWithHeaders_only_adds (w : World) (req : http_Request.t)
  (hs : list (option http_Header)) (K v : string) :
  let req' := reqWithHeaders w req hs in
  (∃ added, http_Request.Header req' !!! K
            = (http_Request.Header req !!! K) ++ added)
  ∧ count_at (http_Request.Header req') K v
    = (count_at (http_Request.Header req) K v
       + sum_list ((λ hd, stored hd K v) <$> hs))%nat
  ∧ req' = http_Request.withHeader req (http_Request.Header req').
Proof.
  revert req. induction hs as [|hd hs IH]; intros req.
  - cbn. split; [exists []; by rewrite app_nil_r|].
    split; [lia|by destruct req].
  - cbv zeta in *. rewrite reqWithHeaders_cons.
    destruct (IH (reqWithHeaders w req [hd])) as ([added Hp] & Hc & Hf).
    destruct (reqWithHeaders_count w req hd K v) as [Hc1 Hf1].
    destruct (add_entries_prefix req (rangeOrder w (default ∅ hd)) K)
      as [added1 Hp1].
    change (foldl _ req (rangeOrder w (default ∅ hd)))
      with (reqWithHeaders w req [hd]) in Hp1.
    split; [|split].
    + rewrite Hp, Hp1, <- app_assoc. by eexists.
    + rewrite Hc, Hc1. cbn [fmap list_fmap sum_list]. cbn. lia.
    + rewrite Hf at 1. rewrite Hf1 at 1. reflexivity.
Qed.
End MoreReqWithHeaders.

(** ** request.go: uriWithBase *)

Lemma HasPrefix_empty (s : string) : HasPrefix s "" = true.
Proof. by destruct s. Qed.

Lemma append_cons (c : Ascii.ascii) (p s : string) :
  String c p +:+ s = String c (p +:+ s).
Proof. reflexivity. Qed.

Lemma HasPrefix_app (p s : string) : HasPrefix (p +:+ s) p = true.
Proof.
  induction p as [|c p IH]; [apply HasPrefix_empty|].
  rewrite append_cons. cbn [HasPrefix]. by rewrite Ascii.eqb_refl, IH.
Qed.

Lemma HasPrefix_trans (s p q : string) :
  HasPrefix s p = true → HasPrefix p q = true → HasPrefix s q = true.
Proof.
  revert s p. induction q as [|c q IH]; intros s p Hsp Hpq; [apply HasPrefix_empty|].
  destruct p as [|b p]; [done|]. destruct s as [|a s]; [done|].
  cbn [HasPrefix] in *. apply andb_true_iff in Hsp as [Hab Hsp].
  apply andb_true_iff in Hpq as [Hbc Hpq].
  apply Ascii.eqb_eq in Hab as ->. rewrite Hbc. cbn [andb]. by apply (IH s p).
Qed.

Lemma HasPrefix_TrimRight (s cutset : string) :
  HasPrefix s (TrimRight s cutset) = true.
Proof.
  induction s as [|c s IH]; [done|]. cbn [TrimRight].
  destruct (TrimRight s cutset) as [|d t] eqn:Ht.
  - destruct (in_cutset c cutset); cbn [HasPrefix]; [done|].
    by rewrite Ascii.eqb_refl, HasPrefix_empty.
  - cbn [HasPrefix]. by rewrite Ascii.eqb_refl, IH.
Qed.

Lemma TrimLeft_suffix (s cutset : string) :
  ∃ pre, s = pre +:+ TrimLeft s cutset.
Proof.
  induction s as [|c s [pre IH]]; [by exists ""|]. cbn [TrimLeft].
  destruct (in_cutset c cutset).
  - exists (String c pre). by rewrite append_cons, <- IH.
  - by exists "".
Qed.

Lemma append_assoc (a b c : string) : (a +:+ b) +:+ c = a +:+ (b +:+ c).
Proof. induction a as [|x a IH]; [done|]. by rewrite !append_cons, IH. Qed.

(** X10. Whatever the uri and the base, the result of uriWithBase begins
    with the base without its trailing slashes and ends with the uri
    without its leading slashes. *)
Theorem uriWithBase_joins_base_and_uri (uri baseURL : string) :
  HasPrefix (uriWithBase uri baseURL) (TrimRight baseURL "/") = true
  ∧ ∃ pre, uriWithBase uri baseURL = pre +:+ TrimLeft uri "/".
Proof.
  unfold uriWithBase.
  destruct (String.eqb baseURL "") eqn:Hb; cbn [negb andb].
  - apply String.eqb_eq in Hb as ->. split; [apply HasPrefix_empty|].
    apply TrimLeft_suffix.
  - destruct (HasPrefix uri baseURL) eqn:Hp; cbn [negb].
    + split; [|apply TrimLeft_suffix].
      apply (HasPrefix_trans _ baseURL); [done|apply HasPrefix_TrimRight].
    + split; [apply HasPrefix_app|].
      exists (TrimRight baseURL "/" +:+ "/"). by rewrite append_assoc.
Qed.

(** X11. With a base that has at most one trailing slash, uriWithBase
    adds the base once only: applied to its own result it changes
    nothing. *)
Theorem uriWithBase_is_idempotent (uri baseURL : string) :
  HasPrefix (TrimRight baseURL "/" +:+ "/") baseURL = true →
  uriWithBase (uriWithBase uri baseURL) baseURL = uriWithBase uri baseURL.
Proof.
  intros Hbase. unfold uriWithBase.
  destruct (negb (String.eqb baseURL "") && negb (HasPrefix uri baseURL)) eqn:Hc.
  - rewrite <- append_assoc.
    rewrite (HasPrefix_trans _ _ _ (HasPrefix_app _ _) Hbase).
    cbn [negb]. by rewrite andb_false_r.
  - by rewrite Hc.
Qed.

(** A base with two trailing slashes is added again and again. *)
Example uriWithBase_double_slash :
  uriWithBase "x" "http://h//" = "http://h/x"
  ∧ uriWithBase "http://h/x" "http://h//" = "http://h/http://h/x".
Proof. by vm_compute. Qed.

Lemma uriWithBase_is_idempotent_witness :
  uriWithBase (uriWithBase "/foo" "https://example.com/") "https://example.com/"
  = uriWithBase "/foo" "https://example.com/".
Proof. apply uriWithBase_is_idempotent. vm_compute. reflexivity. Defined.

Example uriWithBase_example :
  uriWithBase "/foo" "https://example.com/" = "https://example.com/foo"
  ∧ uriWithBase "https://example.com/foo" "https://example.com" = "https://example.com/foo"
  ∧ uriWithBase "foo" "" = "foo".
Proof. by vm_compute. Qed.

(** ** The dispatcher: what every dispatch does *)

Section MoreDispatchFacts.
Context {F : Type} `{Float64Ops F} `{Externals} `{!RateWait F}.

Lemma overloads_app (l1 l2 : list (http_Request.t * outcome)) :
  overloads (l1 ++ l2) = (overloads l1 + overloads l2)%nat.
Proof. unfold overloads. by rewrite filter_app, length_app. Qed.

Lemma overloads_singleton (x : http_Request.t) (o : outcome) :
  overloads [(x, o)] = if is429 o then 1%nat else 0%nat.
Proof.
  unfold overloads. rewrite filter_cons, filter_nil. cbn [snd].
  destruct (is429 o); by destruct (decide _).
Qed.

Lemma overloads_all (l : list (http_Request.t * outcome)) :
  Forall (λ y, is429 y.2 = true) l → overloads l = length l.
Proof.
  induction 1 as [|y l Hy _ IH]; [done|].
  change (y :: l) with ([y] ++ l). rewrite overloads_app, IH.
  destruct y as [x o]. rewrite overloads_singleton. cbn in Hy. by rewrite Hy.
Qed.

Lemma SlowDowns_add (a b : nat) (r : option (RateLimiter F)) :
  SlowDowns b (SlowDowns a r) = SlowDowns (a + b) r.
Proof. unfold SlowDowns. by rewrite Nat.add_comm, Nat.iter_add. Qed.

Lemma dispatched_nil (s s' : State F) :
  sent s' = sent s → logged s' = logged s → client s' = client s →
  dispatched s s' [].
Proof.
  intros Hs Hl Hc. unfold dispatched.
  rewrite Hs, Hl, Hc, app_nil_r, Nat.add_0_r.
  repeat split.
Qed.

Lemma dispatched_trans (s1 s2 s3 : State F)
  (new1 new2 : list (http_Request.t * outcome)) :
  dispatched s1 s2 new1 → dispatched s2 s3 new2 →
  dispatched s1 s3 (new1 ++ new2).
Proof.
  intros (Hs1 & Hl1 & Hr1 & Hc1) (Hs2 & Hl2 & Hr2 & Hc2).
  unfold dispatched.
  rewrite Hs2, Hs1, Hl2, Hl1, Hr2, Hr1, SlowDowns_add, overloads_app,
    length_app, <- app_assoc.
  split; [done|]. split; [lia|]. split; [done|].
  by apply (same_config_trans _ (client s2)).
Qed.

(** One attempt: refused by Wait, or one transport call. *)
Lemma do_dispatched (s s' : State F) (o : outcome) :
  Client.do s = Some (o, s') →
  (∃ e, o = (None, Some e) ∧ dispatched s s' [])
  ∨ (∃ x, o ≠ (None, None) ∧ dispatched s s' [(x, o)]).
Proof.
  intros Hdo.
  destruct (RateLimiter.Wait (rateLimiter (client s))
              (http_Request.ctx (request s)) (world s)) as [[e|] w1] eqn:HW.
  - destruct (do_refused s e w1 HW) as (s0 & Hdo0 & Hcl & _ & Hsent & Hlog).
    rewrite Hdo0 in Hdo. injection Hdo as <- <-.
    left. exists e. split; [done|]. by apply dispatched_nil.
  - destruct (Client.httpClient_ (client s) (attempt_request s w1) w1)
      as [o0 w2] eqn:HT.
    assert (o0 = (None, None) ∨ o0 ≠ (None, None)) as [->|Ho]
      by (destruct o0 as [[?|] [?|]]; (by left) || (by right)).
    { by rewrite (do_nil_nil s w1 w2 HW HT) in Hdo. }
    destruct (do_sent s w1 w2 o0 HW HT Ho)
      as (s0 & rec & Hdo0 & _ & Hsent & Hlog & _ & _ & Hrl & Hcfg).
    rewrite Hdo0 in Hdo. injection Hdo as <- <-.
    right. exists (attempt_request s w1). split; [done|].
    unfold dispatched. rewrite Hsent, Hlog, Hrl, overloads_singleton, !length_app.
    split; [done|]. split; [done|]. split; [by destruct (is429 o0)|done].
Qed.

(** The retry loop with the fuel of [Do]. *)
Lemma Do_loop_dispatched (k : Z) (fuel : nat) (tries : Z) (o o' : outcome)
  (s s' : State F) :
  fuel = Z.to_nat (k - tries) →
  Client.Do_loop k fuel tries o s = Some (o', s') →
  ∃ new,
    dispatched s s' new
    ∧ (length new ≤ fuel)%nat
    ∧ (is429 o' = true → length new = fuel)
    ∧ ((new = [] ∧ o' = o)
       ∨ (∃ pre x, new = pre ++ [(x, o')]
                   ∧ Forall (λ y, is429 y.2 = true) pre ∧ o' ≠ (None, None))
       ∨ (∃ e, o' = (None, Some e) ∧ Forall (λ y, is429 y.2 = true) new)).
Proof.
  revert tries o s. induction fuel as [|fuel IH]; intros tries o s Hfuel Hloop.
  - injection Hloop as <- <-. exists [].
    split; [by apply dispatched_nil|]. split; [done|]. split; [done|]. by left.
  - cbn [Client.Do_loop] in Hloop.
    rewrite (bool_decide_eq_true_2 (tries < k)%Z) in Hloop by lia.
    rewrite andb_true_r in Hloop.
    destruct (is429 o) eqn:Ho.
    + unfold bind in Hloop.
      destruct (Client.do s) as [[o1 s1]|] eqn:Hdo; [|done].
      destruct (do_dispatched s s1 o1 Hdo) as [(e & -> & Hd1)|(x & Hnn & Hd1)].
      * (* the retry was refused: the loop ends with the error *)
        rewrite Do_loop_stops in Hloop by done. injection Hloop as <- <-.
        exists []. split; [done|]. split; [cbn; lia|]. split; [done|].
        right; right. by exists e.
      * destruct (is429 o1) eqn:Ho1.
        -- destruct (IH (tries + 1)%Z o1 s1 ltac:(lia) Hloop)
             as (new & Hd & Hlen & Hex & Hshape).
           exists ([(x, o1)] ++ new).
           split; [by apply (dispatched_trans _ s1)|].
           split; [cbn; lia|]. split; [intros ?; cbn; by rewrite Hex|].
           destruct Hshape
             as [[-> ->]|[(pre & y & -> & Hpre & Ho')|(e & -> & Hall)]].
           ++ right; left. by exists [], x.
           ++ right; left. exists ((x, o1) :: pre), y.
              split; [done|]. split; [by constructor|done].
           ++ right; right. exists e. split; [done|]. by constructor.
        -- rewrite Do_loop_stops in Hloop by done. injection Hloop as <- <-.
           exists [(x, o1)]. split; [done|]. split; [cbn; lia|].
           split; [congruence|]. right; left. by exists [], x.
    + injection Hloop as <- <-. exists [].
      split; [by apply dispatched_nil|]. split; [cbn; lia|].
      split; [intros ?; congruence|]. by left.
Qed.

Lemma dispatched_exchanges (s s' : State F)
  (new : list (http_Request.t * outcome)) :
  dispatched s s' new →
  exchanges s s' = new ∧ calls s s' = length new.
Proof.
  intros (Hs & _). unfold exchanges, calls.
  rewrite Hs, drop_app_length, length_app. split; [done|lia].
Qed.

(** A whole dispatch. *)
Lemma Do_dispatched (s s' : State F) (o : outcome) :
  Client.Do s = Some (o, s') →
  ∃ new,
    dispatched s s' new
    ∧ (length new ≤ Z.to_nat (RetriesOn429 (client s)) + 1)%nat
    ∧ (is429 o = true →
       length new = (Z.to_nat (RetriesOn429 (client s)) + 1)%nat)
    ∧ ((∃ pre x, new = pre ++ [(x, o)]
                 ∧ Forall (λ y, is429 y.2 = true) pre ∧ o ≠ (None, None))
       ∨ (∃ e, o = (None, Some e) ∧ Forall (λ y, is429 y.2 = true) new)).
Proof.
  unfold Client.Do, bind, get. cbn beta iota. intros HDo.
  destruct (Client.do s) as [[o1 s1]|] eqn:Hdo; [|done].
  destruct (do_dispatched s s1 o1 Hdo) as [(e & -> & Hd1)|(x & Hnn & Hd1)].
  - rewrite Do_loop_stops in HDo by done. injection HDo as <- <-.
    exists []. split; [done|]. split; [cbn; lia|]. split; [done|].
    right. by exists e.
  - destruct (is429 o1) eqn:Ho1.
    + destruct (Do_loop_dispatched _ _ _ _ _ _ _ ltac:(by rewrite Z.sub_0_r) HDo)
        as (new & Hd & Hlen & Hex & Hshape).
      exists ([(x, o1)] ++ new).
      split; [by apply (dispatched_trans _ s1)|].
      split; [cbn; lia|].
      split; [intros Ho; cbn; rewrite (Hex Ho); lia|].
      destruct Hshape
        as [[-> ->]|[(pre & y & -> & Hpre & Ho')|(e & -> & Hall)]].
      * left. by exists [], x.
      * left. exists ((x, o1) :: pre), y.
        split; [done|]. split; [by constructor|done].
      * right. exists e. split; [done|]. by constructor.
    + rewrite Do_loop_stops in HDo by done. injection HDo as <- <-.
      exists [(x, o1)]. split; [done|]. split; [cbn; lia|].
      split; [congruence|]. left. by exists [], x.
Qed.

(** X12. What logRqRs sends to the logger, for an outcome that has a
    response or an error: exactly one call, with the request's method,
    path, headers and query. With an error the level is Error and the
    message "[RQ/RS] method path"; without one the level is Info for a
    status below 400 and Warn for every status from 400 on, and the
    message ends with the status. *)
Theorem logRqRs_levels_and_message
  (req : http_Request.t) (res : http_Response.t) (e : go_error)
  (o : option http_Response.t) (s : State F) :
  let head := "[RQ/RS] " +:+ http_Request.Method req +:+ " "
                +:+ url_URL.Path (http_Request.URL req) in
  (∃ s', Client.logRqRs req o (Some e) s = Some (tt, s')
         ∧ ∃ rec, logged s' = logged s ++ [rec]
                  ∧ level rec = LevelError ∧ message rec = head
                  ∧ fields rec = req_error (reqFields_of req) e)
  ∧ (∃ s', Client.logRqRs req (Some res) None s = Some (tt, s')
           ∧ ∃ rec bf, logged s' = logged s ++ [rec]
                    ∧ level rec
                      = (if decide (http_Response.StatusCode res < 400)%Z
                         then LevelInfo else LevelWarn)
                    ∧ message rec = head +:+ " " +:+ http_Response.Status res
                    ∧ fields rec
                      = req_res (reqFields_of req)
                          {| f_status := http_Response.Status res;
                             f_resheader := http_Response.Header res;
                             f_body := bf |}).
Proof.
  unfold Client.logRqRs, bind, get, modify, ret. cbn beta iota zeta. split.
  - eexists. split; [reflexivity|]. by eexists.
  - destruct (DecodeResponse res (world s)) as [[[bodyBytes out] derr] w].
    destruct (decide (400 ≤ http_Response.StatusCode res)%Z);
      (eexists; split; [reflexivity|]; do 2 eexists;
       split; [reflexivity|]; split; [|by split]);
      cbn; destruct (decide _); done || lia.
Qed.

(** X13. Whatever the transport and the limiter do, one dispatch calls
    the transport at most RetriesOn429 + 1 times (once when RetriesOn429 is
    negative), and it returns a 429 response only when it has made all of
    these calls. *)
Theorem Do_makes_at_most_k_plus_1_calls (s s' : State F) (o : outcome) :
  Client.Do s = Some (o, s') →
  (calls s s' ≤ Z.to_nat (RetriesOn429 (client s)) + 1)%nat
  ∧ (is429 o = true →
     calls s s' = (Z.to_nat (RetriesOn429 (client s)) + 1)%nat).
Proof.
  intros HDo. destruct (Do_dispatched s s' o HDo) as (new & Hd & Hle & Hex & _).
  destruct (dispatched_exchanges s s' new Hd) as [_ ->]. by split.
Qed.

(** X14. A dispatch logs every transport call exactly once and nothing
    else: the log grows by as many records as there were calls, so an
    attempt that Wait refuses leaves no record. *)
Theorem Do_logs_every_call_once (s s' : State F) (o : outcome) :
  Client.Do s = Some (o, s') →
  length (logged s') = (length (logged s) + calls s s')%nat.
Proof.
  intros HDo. destruct (Do_dispatched s s' o HDo) as (new & Hd & _).
  destruct (dispatched_exchanges s s' new Hd) as [_ ->]. by destruct Hd as (_ & ? & _).
Qed.

(** X15. A dispatch slows the limiter down once for every 429 response
    it receives and changes it in no other way; the transport, the host,
    the logger and the retry count of the client stay as they were. *)
Theorem Do_slows_down_once_per_429 (s s' : State F) (o : outcome) :
  Client.Do s = Some (o, s') →
  rateLimiter (client s')
  = SlowDowns (overloads (exchanges s s')) (rateLimiter (client s))
  ∧ same_config (client s) (client s').
Proof.
  intros HDo. destruct (Do_dispatched s s' o HDo) as (new & Hd & _).
  destruct (dispatched_exchanges s s' new Hd) as [-> _].
  by destruct Hd as (_ & _ & ? & ?).
Qed.

(** X16. A dispatch never returns neither a response nor an error. It
    retries on nothing but a 429 response: every transport call before the
    last was answered by one. What it returns is the outcome of its last
    transport call, or the error of a Wait that refused an attempt; the
    calls made earlier stay on record. *)
Theorem Do_returns_the_last_outcome (s s' : State F) (o : outcome) :
  Client.Do s = Some (o, s') →
  o ≠ (None, None)
  ∧ sent s' = sent s ++ exchanges s s'
  ∧ ((∃ pre x, exchanges s s' = pre ++ [(x, o)]
               ∧ Forall (λ y, is429 y.2 = true) pre)
     ∨ (∃ e, o = (None, Some e)
             ∧ Forall (λ y, is429 y.2 = true) (exchanges s s'))).
Proof.
  intros HDo. destruct (Do_dispatched s s' o HDo) as (new & Hd & _ & _ & Hshape).
  destruct (dispatched_exchanges s s' new Hd) as [-> _].
  destruct Hd as (Hsent & _).
  destruct Hshape as [(pre & x & -> & Hpre & Ho)|(e & -> & Hall)].
  - split; [done|]. split; [done|]. left. by exists pre, x.
  - split; [done|]. split; [done|]. right. by exists e.
Qed.

(** X17. When Wait refuses the first attempt, Do returns its error with
    a nil response and has done nothing else: no transport call, no log
    record, the request and the client as they were. *)
Theorem Do_refused_changes_nothing (s : State F) (e : go_error) (w : World) :
  RateLimiter.Wait (rateLimiter (client s)) (http_Request.ctx (request s)) (world s)
  = (Some e, w) →
  ∃ s' : State F,
    Client.Do s = Some ((None, Some e), s')
    ∧ sent s' = sent s ∧ logged s' = logged s
    ∧ request s' = request s ∧ client s' = client s.
Proof.
  intros HW. destruct (do_refused s e w HW) as (s' & Hdo & Hc & Hr & Hs & Hl).
  exists s'. unfold Client.Do, bind, get. cbn beta iota.
  rewrite Hdo. cbn beta iota. by rewrite Do_loop_stops.
Qed.
End MoreDispatchFacts.

(** ** client.go: WithHeader and Request *)

Section BuilderFacts.
Context {F : Type} `{Float64Ops F} `{Externals} `{!RateWait F}
  `{!RequestExternals}.

Lemma AddHeader_count (rh : ReqHeaders) (k : string) (vals : list string)
  (K v : string) :
  count_at (default ∅ (h (ReqHeaders.AddHeader k vals rh))) K v
  = (count_at (default ∅ (h rh)) K v
     + (if decide (CanonicalMIMEHeaderKey k = K) then occurrences v vals else 0))%nat.
Proof.
  unfold ReqHeaders.AddHeader, count_at. cbn.
  rewrite Header_Add_fold_lookup, occurrences_app.
  destruct (h rh); by destruct (decide _).
Qed.

Lemma AddHeader_entries_count (rh : ReqHeaders)
  (entries : list (string * list string)) (K v : string) :
  let rh' := foldl (λ rh kv, ReqHeaders.AddHeader kv.1 kv.2 rh) rh entries in
  count_at (default ∅ (h rh')) K v
  = (count_at (default ∅ (h rh)) K v + adds entries K v)%nat
  ∧ ReqID rh' = ReqID rh
  ∧ (is_Some (h rh) → is_Some (h rh')).
Proof.
  revert rh. induction entries as [|kv entries IH]; intros rh; cbn [foldl].
  - split; [unfold adds; cbn; lia|done].
  - destruct (IH (ReqHeaders.AddHeader kv.1 kv.2 rh)) as (Hc & Hid & Hs).
    cbv zeta in *. rewrite Hc, AddHeader_count, adds_cons, Hid.
    split; [lia|]. split; [done|]. intros _. apply Hs. by eexists.
Qed.

(** X18. WithHeader(hdr) returns a client that holds, besides what the
    client held, every value of hdr, each under the canonical form of its
    key; its other fields are those of the client. It is not a copy in
    all respects: when the client it is called on already has a header
    map, that client has gained the same values, because the map is
    shared; only a client without a map is left as it was. *)
Theorem WithHeader_adds_to_the_shared_map
  (w : World) (hdr : option http_Header) (c : Client F) (K v : string) :
  let c' := (WithHeader w hdr c).1 in
  let receiver := (WithHeader w hdr c).2 in
  count_at (default ∅ (h (reqHeaders c'))) K v
  = (count_at (default ∅ (h (reqHeaders c))) K v + stored hdr K v)%nat
  ∧ ReqID (reqHeaders c') = ReqID (reqHeaders c)
  ∧ same_config c c' ∧ rateLimiter c' = rateLimiter c
  ∧ match h (reqHeaders c) with
    | None => receiver = c
    | Some _ => receiver = c'
    end.
Proof.
  unfold WithHeader. cbn [fst snd reqHeaders with_reqHeaders rateLimiter].
  destruct (AddHeader_entries_count (reqHeaders c)
              (rangeOrder w (default ∅ hdr)) K v) as (Hc & Hid & _).
  cbv zeta in Hc, Hid. rewrite Hc, Hid.
  rewrite (adds_perm _ _ K v (rangeOrder_perm w (default ∅ hdr))).
  split; [done|]. split; [done|]. split; [by repeat split|]. split; [done|].
  by destruct (h (reqHeaders c)).
Qed.

(** X19. Request with a body that is neither nil nor a reader, when the
    body can be encoded and the request can be built: the request has the
    method and the context asked for and carries every value of the
    headers given plus one application/json under Content-Type. That
    value has been added to the caller's own header map, unless the
    caller gave nil. *)
Theorem Request_with_JSON_body_adds_content_type
  (c : Client F) (w : World) (ctx : context_Context) (method uri : string)
  (headers : option http_Header) (v : Value) (bytes : list Byte.byte)
  (req0 : http_Request.t) (K x : string) :
  json_Marshal v = inl bytes →
  http_NewRequestWithContext ctx method (uriWithBase uri (Host c)) = inl req0 →
  ∃ req,
    Request c w ctx method uri headers (body_value v)
    = (Some req, None,
       match headers with
       | None => None
       | Some m => Some (Header_Add m HeaderContentType ApplicationJSON)
       end)
    ∧ http_Request.Method req = (if decide (method = "") then "GET" else method)
    ∧ http_Request.ctx req = ctx
    ∧ count_at (http_Request.Header req) K x
      = (stored headers K x
         + (if decide (CanonicalMIMEHeaderKey
                         (CanonicalMIMEHeaderKey HeaderContentType) = K
                       ∧ ApplicationJSON = x)
            then 1 else 0))%nat.
Proof.
  intros Hm Hn. unfold Request. rewrite Hm, Hn.
  destruct (NewRequest_ok _ _ _ _ Hn) as (Hmeth & Hhd & Hctx).
  eexists. split; [by destruct headers|].
  destruct (reqWithHeaders_count w req0
              (Some (Header_Add (default ∅ headers)
                       HeaderContentType ApplicationJSON)) K x) as [Hc Hf].
  rewrite Hf at 1 2. cbn [http_Request.Method http_Request.ctx http_Request.withHeader].
  split; [done|]. split; [done|].
  rewrite Hc, stored_Header_Add, Hhd.
  unfold count_at at 1. rewrite lookup_total_empty. by destruct headers.
Qed.

(** X20. Request with a nil body or a reader, when the request can be
    built: the caller's headers are left alone, and the request carries
    exactly their values, each under the canonical form of its key. *)
Theorem Request_without_JSON_body_copies_the_headers
  (c : Client F) (w : World) (ctx : context_Context) (method uri : string)
  (headers : option http_Header) (r : Reader)
  (req0 : http_Request.t) (K x : string) :
  http_NewRequestWithContext ctx method (uriWithBase uri (Host c)) = inl req0 →
  ∃ req,
    Request c w ctx method uri headers body_nil = (Some req, None, headers)
    ∧ Request c w ctx method uri headers (body_reader r) = (Some req, None, headers)
    ∧ count_at (http_Request.Header req) K x = stored headers K x.
Proof.
  intros Hn. unfold Request. rewrite Hn.
  destruct (NewRequest_ok _ _ _ _ Hn) as (_ & Hhd & _).
  eexists. split; [by destruct headers|]. split; [by destruct headers|].
  destruct (reqWithHeaders_count w req0 headers K x) as [Hc _].
  rewrite Hc, Hhd. unfold count_at at 1. by rewrite lookup_total_empty.
Qed.

(** X21. When Request fails it returns no request. A body that cannot be
    encoded leaves the caller's headers as they were; but when the body
    was encoded and building the request fails, the caller's header map
    has already gained the content type. *)
Theorem Request_failures
  (c : Client F) (w : World) (ctx : context_Context) (method uri : string)
  (m : http_Header) (v1 v2 : Value) (bytes : list Byte.byte) (e1 e2 : go_error) :
  json_Marshal v1 = inr e1 →
  json_Marshal v2 = inl bytes →
  http_NewRequestWithContext ctx method (uriWithBase uri (Host c)) = inr e2 →
  Request c w ctx method uri (Some m) (body_value v1)
  = (None, Some ("jsonEncode(body) failed: " +:+ e1), Some m)
  ∧ Request c w ctx method uri (Some m) (body_value v2)
    = (None, Some ("http.NewRequest failed: " +:+ e2),
       Some (Header_Add m HeaderContentType ApplicationJSON)).
Proof. unfold Request. by intros -> -> ->. Qed.
End BuilderFacts.

(** ** client.go: DoAndDecode and DoReq *)

Section DoReqFacts.
Context {F : Type} `{Float64Ops F} `{Externals} `{!RateWait F}
  `{!RequestExternals} `{!DecodeExternals}.


(** X23. DoReq with a model that fails its validation returns the error
    behind "request invalid: " and has done nothing: Header() has not been
    called on the model, no request has been built, no transport call made
    and nothing logged. *)
Theorem DoReq_rejects_an_invalid_model
  (ctx : context_Context) (method : string) (r : RequestModel)
  (out errRes : option Target) (s : State F) (e : go_error) :
  model_Validate r = Some e →
  DoReq ctx method r out errRes s
  = (model_headers r, Some ((None, Some ("request invalid: " +:+ e)), s)).
Proof. unfold DoReq. by intros ->. Qed.

(** X24. Every DoReq with a valid model whose body can be encoded leaves
    its mark on the model's own headers, whatever happens to the request
    afterwards: when the model has a ReqID, one more copy of it under
    X-Request-ID, and one more application/json under Content-Type. The
    model is taken to have a ReqID or a header map: only then is the map
    that Header() returns the model's own. *)
Theorem DoReq_adds_to_the_headers_of_the_model
  (ctx : context_Context) (method : string) (r : RequestModel)
  (out errRes : option Target) (s : State F) (bytes : list Byte.byte)
  (K x : string) :
  model_Validate r = None →
  json_Marshal (model_value r) = inl bytes →
  ReqID (model_headers r) ≠ "" ∨ is_Some (h (model_headers r)) →
  let rh' := (DoReq ctx method r out errRes s).1 in
  ReqID rh' = ReqID (model_headers r)
  ∧ is_Some (h rh')
  ∧ count_at (default ∅ (h rh')) K x
    = (count_at (default ∅ (h (model_headers r))) K x
       + (if decide (ReqID (model_headers r) ≠ ""
                     ∧ CanonicalMIMEHeaderKey HeaderReqID = K
                     ∧ ReqID (model_headers r) = x) then 1 else 0)
       + (if decide (CanonicalMIMEHeaderKey HeaderContentType = K
                     ∧ ApplicationJSON = x) then 1 else 0))%nat.
Proof.
  intros Hv Hm Hmark. unfold DoReq, Request. rewrite Hv, Hm.
  destruct (decide (ReqID (model_headers r) = "")) as [Hid|Hid].
  - destruct Hmark as [?|[m Hh]]; [done|].
    rewrite Header_without_ReqID, Hh by done.
    destruct (http_NewRequestWithContext _ _ _);
      cbn [fst h ReqID default from_option Datatypes.id];
      (split; [done|]; split; [by eexists|]);
      rewrite Header_Add_count;
      (rewrite (decide_False (P:=_ ∧ _ ∧ _)) by tauto); lia.
  - rewrite Header_with_ReqID by done.
    destruct (http_NewRequestWithContext _ _ _);
      cbn [fst h ReqID default from_option Datatypes.id];
      (split; [done|]; split; [by eexists|]);
      rewrite !Header_Add_count;
      destruct (decide (_ ∧ _ ∧ _)); destruct (decide (_ ∧ _));
      destruct (decide (_ ∧ _)); try lia; exfalso; tauto.
Qed.
End DoReqFacts.

(** ** The example package *)

(** X25. Validate accepts exactly the requests whose street, city, state
    and zip are all non-empty, the ID being free, and it names the first
    of these that is missing, in that order. *)
Theorem Validate_names_the_first_missing_field (req : example.StorePropertyReq) :
  let p := example.property req in
  (example.Validate req = None
   ↔ example.Street p ≠ "" ∧ example.City p ≠ ""
     ∧ example.State p ≠ "" ∧ example.Zip p ≠ "")
  ∧ (example.Validate req = Some example.ErrStreetRequired
     ↔ example.Street p = "")
  ∧ (example.Validate req = Some "missing city"
     ↔ example.Street p ≠ "" ∧ example.City p = "")
  ∧ (example.Validate req = Some "missing state"
     ↔ example.Street p ≠ "" ∧ example.City p ≠ "" ∧ example.State p = "")
  ∧ (example.Validate req = Some "missing zip"
     ↔ example.Street p ≠ "" ∧ example.City p ≠ "" ∧ example.State p ≠ ""
       ∧ example.Zip p = "").
Proof.
  unfold example.Validate, example.ErrStreetRequired. cbv zeta.
  repeat case_decide; repeat split; intros; try tauto; try congruence;
    try discriminate.
Qed.

Lemma ErrorOrNil_nil_iff (e : example.ErrorResponse) :
  example.ErrorOrNil e = None
  ↔ e = {| example.apiError :=
             {| example.Code := 0; example.Message := "";
                example.Type_ := "" |} |}.
Proof.
  destruct e as [[code msg ty]].
  unfold example.ErrorOrNil, example.IsZero. cbn. split.
  - destruct (bool_decide (code = 0%Z)) eqn:H1; [|done].
    destruct (bool_decide (msg = "")) eqn:H2; [|done].
    destruct (bool_decide (ty = "")) eqn:H3; [|done]. intros _.
    apply bool_decide_eq_true in H1, H2, H3. by subst.
  - by intros [= -> -> ->].
Qed.

(** X26. A response with a code or a type but without a message is not
    zero, so ErrorOrNil returns it as an error; the text of that error is
    empty. *)
Theorem ErrorOrNil_can_be_an_error_without_text (e : example.ErrorResponse) :
  example.Message (example.apiError e) = "" →
  example.Code (example.apiError e) ≠ 0%Z ∨ example.Type_ (example.apiError e) ≠ "" →
  example.ErrorOrNil e = Some e ∧ example.Error e = "".
Proof.
  intros Hm Hnz. unfold example.ErrorOrNil, example.Error.
  rewrite (decide_True _ _ Hm). split; [|done].
  destruct (example.IsZero e) eqn:Hz; [|done].
  unfold example.IsZero in Hz.
  apply andb_true_iff in Hz as [[Hc _]%andb_true_iff Ht].
  apply bool_decide_eq_true in Hc, Ht. tauto.
Qed.

(** ** Further runs in the concrete surroundings *)

Module MoreRuns.
Import Demo DemoRequest.

Lemma NewRateLimiter_keeps_rate_and_last_option_wins_witness :
  let opts := [RateLimitBurst 5; RateLimitChangePercent 0x1p-1%float] in
  (∃ l p, NewRateLimiter 100%float opts = backed l p ∧ limit l = 100%float)
  ∧ RateLimiter.Limit (NewRateLimiter 100%float opts) = 100%float
  ∧ RateLimiter.Burst (NewRateLimiter 100%float (opts ++ [RateLimitBurst 7])) = 7%Z
  ∧ RateLimiter.Limit
      (RateLimiter.SlowDown
         (NewRateLimiter 100%float
            (opts ++ [RateLimitChangePercent 0x1p-2%float])))
    = fmul 100%float (fsub fone 0x1p-2%float).
Proof.
  intros opts.
  apply (NewRateLimiter_keeps_rate_and_last_option_wins
           100%float 0x1p-2%float 7 opts).
  apply Forall_cons_2; [right; eexists; reflexivity|].
  apply Forall_cons_2; [left; eexists; reflexivity|].
  apply Forall_nil_2.
Defined.

Lemma Get_after_Header_calls_witness :
  let r := {| ReqID := "abc"; h := None |} in
  Header_Get (default ∅ (h (ReqHeaders.Headers 3 r))) HeaderReqID
  = match default ∅ (h r) !!! CanonicalMIMEHeaderKey HeaderReqID with
    | [] => ReqID r
    | v :: _ => v
    end.
Proof.
  intros r. apply (Get_after_Header_calls r 2). vm_compute. congruence.
Defined.

Lemma Do_makes_at_most_k_plus_1_calls_witness :
  let r := result (Client.Do taggedClient) taggedClient in
  (calls taggedClient r.2 ≤ Z.to_nat (RetriesOn429 (client taggedClient)) + 1)%nat
  ∧ (is429 r.1 = true →
     calls taggedClient r.2
     = (Z.to_nat (RetriesOn429 (client taggedClient)) + 1)%nat).
Proof.
  intros r. apply (Do_makes_at_most_k_plus_1_calls taggedClient r.2 r.1).
  vm_compute. reflexivity.
Defined.

Lemma Do_logs_every_call_once_witness :
  let r := result (Client.Do overloadedPeer) overloadedPeer in
  length (logged r.2)
  = (length (logged overloadedPeer) + calls overloadedPeer r.2)%nat.
Proof.
  intros r. apply (Do_logs_every_call_once overloadedPeer r.2 r.1).
  vm_compute. reflexivity.
Defined.

Lemma Do_slows_down_once_per_429_witness :
  let s := start (mkClient noHeaders (scripted [tooMany] ok)
                    (NewRateLimiter 100%float []) 2) (get_ false) in
  let r := result (Client.Do s) s in
  rateLimiter (client r.2)
  = SlowDowns (overloads (exchanges s r.2)) (rateLimiter (client s))
  ∧ same_config (client s) (client r.2).
Proof.
  intros s r. apply (Do_slows_down_once_per_429 s r.2 r.1).
  vm_compute. reflexivity.
Defined.

(** In that run one of the two calls was answered by 429, and the rate
    went from 100 to 100 * (1 - 0.1). *)
Example Do_slows_down_once :
  let s := start (mkClient noHeaders (scripted [tooMany] ok)
                    (NewRateLimiter 100%float []) 2) (get_ false) in
  let r := result (Client.Do s) s in
  r.1 = ok ∧ calls s r.2 = 2%nat ∧ overloads (exchanges s r.2) = 1%nat
  ∧ RateLimiter.Limit (rateLimiter (client r.2))
    = PrimFloat.mul 100 (PrimFloat.sub 1 fTenth).
Proof. vm_compute. repeat split. Qed.

Lemma Do_returns_the_last_outcome_witness :
  let r := result (Client.Do taggedClient) taggedClient in
  r.1 ≠ (None, None)
  ∧ sent r.2 = sent taggedClient ++ exchanges taggedClient r.2
  ∧ ((∃ pre x, exchanges taggedClient r.2 = pre ++ [(x, r.1)]
               ∧ Forall (λ y, is429 y.2 = true) pre)
     ∨ (∃ e, r.1 = (None, Some e)
             ∧ Forall (λ y, is429 y.2 = true) (exchanges taggedClient r.2))).
Proof.
  intros r. apply (Do_returns_the_last_outcome taggedClient r.2 r.1).
  vm_compute. reflexivity.
Defined.

Lemma Do_refused_changes_nothing_witness :
  ∃ s' : State float,
    Client.Do cancelledRequest = Some ((None, Some "context canceled"), s')
    ∧ sent s' = sent cancelledRequest ∧ logged s' = logged cancelledRequest
    ∧ request s' = request cancelledRequest
    ∧ client s' = client cancelledRequest.
Proof.
  apply (Do_refused_changes_nothing cancelledRequest "context canceled" 0%nat).
  vm_compute. reflexivity.
Defined.

Lemma Request_with_JSON_body_adds_content_type_witness :
  let c := mkClient noHeaders (scripted [] ok) None 0 in
  let m : http_Header := {[ "Accept" := ["text/plain"] ]} in
  ∃ req,
    Request c 0%nat false "" "/" (Some m) (body_value encodable)
    = (Some req, None,
       Some (Header_Add m HeaderContentType ApplicationJSON))
    ∧ http_Request.Method req = (if decide ("" = "") then "GET" else "")
    ∧ http_Request.ctx req = false
    ∧ count_at (http_Request.Header req) "Content-Type" "application/json"
      = (stored (Some m) "Content-Type" "application/json"
         + (if decide (CanonicalMIMEHeaderKey
                         (CanonicalMIMEHeaderKey HeaderContentType) = "Content-Type"
                       ∧ ApplicationJSON = "application/json")
            then 1 else 0))%nat.
Proof.
  intros c m.
  apply (Request_with_JSON_body_adds_content_type
           c 0%nat false "" "/" (Some m) encodable []
           (get_ false) "Content-Type" "application/json");
    vm_compute; reflexivity.
Defined.

(** That request: method GET, the caller's header and one content type. *)
Example Request_with_JSON_body :
  let c := mkClient noHeaders (scripted [] ok) None 0 in
  let m : http_Header := {[ "Accept" := ["text/plain"] ]} in
  ∃ req,
    (Request c 0%nat false "" "/property" (Some m) (body_value encodable)).1.1
    = Some req
    ∧ http_Request.Method req = "GET"
    ∧ url_URL.Path (http_Request.URL req) = "/property"
    ∧ http_Request.Header req !!! "Content-Type" = ["application/json"]
    ∧ http_Request.Header req !!! "Accept" = ["text/plain"].
Proof. eexists. vm_compute. repeat split. Qed.

Lemma Request_without_JSON_body_copies_the_headers_witness :
  let c := mkClient noHeaders (scripted [] ok) None 0 in
  let m : http_Header := {[ "Accept" := ["text/plain"] ]} in
  ∃ req,
    Request c 0%nat false "GET" "/" (Some m) body_nil = (Some req, None, Some m)
    ∧ Request c 0%nat false "GET" "/" (Some m) (body_reader reader)
      = (Some req, None, Some m)
    ∧ count_at (http_Request.Header req) "Accept" "text/plain"
      = stored (Some m) "Accept" "text/plain".
Proof.
  intros c m.
  apply (Request_without_JSON_body_copies_the_headers
           c 0%nat false "GET" "/" (Some m) reader (get_ false)
           "Accept" "text/plain").
  vm_compute. reflexivity.
Defined.

Lemma Request_failures_witness :
  let c := mkClient noHeaders (scripted [] ok) None 0 in
  let m : http_Header := {[ "Accept" := ["text/plain"] ]} in
  Request c 0%nat false "BAD METHOD" "/" (Some m) (body_value unencodable)
  = (None, Some ("jsonEncode(body) failed: " +:+ "json: unsupported value"),
     Some m)
  ∧ Request c 0%nat false "BAD METHOD" "/" (Some m) (body_value encodable)
    = (None, Some ("http.NewRequest failed: " +:+ "net/http: invalid method"),
       Some (Header_Add m HeaderContentType ApplicationJSON)).
Proof.
  intros c m.
  apply (Request_failures c 0%nat false "BAD METHOD" "/" m unencodable encodable []
           "json: unsupported value" "net/http: invalid method");
    vm_compute; reflexivity.
Defined.


(** In that run the response with status 500 comes back together with the
    error of decoding its empty body. *)
Example DoAndDecode_on_failingPeer :
  (result (DoAndDecode (F:=float) None None failingPeer) failingPeer).1
  = (serverError.1, Some "decode empty body").
Proof. vm_compute. reflexivity. Qed.

Lemma DoReq_rejects_an_invalid_model_witness :
  DoReq (F:=float) background "POST" (model false) None None failingPeer
  = (model_headers (model false),
     Some ((None, Some ("request invalid: " +:+ "missing street")), failingPeer)).
Proof.
  apply (DoReq_rejects_an_invalid_model (F:=float) background "POST" (model false) None None
           failingPeer "missing street").
  reflexivity.
Defined.

Lemma DoReq_adds_to_the_headers_of_the_model_witness :
  let r := model true in
  let rh' := (DoReq (F:=float) background "POST" r None None failingPeer).1 in
  ReqID rh' = ReqID (model_headers r)
  ∧ is_Some (h rh')
  ∧ count_at (default ∅ (h rh')) "X-Request-Id" "abc"
    = (count_at (default ∅ (h (model_headers r))) "X-Request-Id" "abc"
       + (if decide (ReqID (model_headers r) ≠ ""
                     ∧ CanonicalMIMEHeaderKey HeaderReqID = "X-Request-Id"
                     ∧ ReqID (model_headers r) = "abc") then 1 else 0)
       + (if decide (CanonicalMIMEHeaderKey HeaderContentType = "X-Request-Id"
                     ∧ ApplicationJSON = "abc") then 1 else 0))%nat.
Proof.
  intros r.
  apply (DoReq_adds_to_the_headers_of_the_model (F:=float) background "POST" r None None
           failingPeer [] "X-Request-Id" "abc").
  - reflexivity.
  - reflexivity.
  - left. vm_compute. congruence.
Defined.

(** The model of that run afterwards: its map holds the request id and
    the content type, and the request sent carried the id once. *)
Example DoReq_on_a_valid_model :
  let r := DoReq (F:=float) background "POST" (model true) None None failingPeer in
  default ∅ (h r.1) !!! "X-Request-Id" = ["abc"]
  ∧ default ∅ (h r.1) !!! "Content-Type" = ["application/json"]
  ∧ (λ x, (http_Request.Method x.1, url_URL.Path (http_Request.URL x.1),
           http_Request.Header x.1 !!! "X-Request-Id"))
      <$> sent (result r.2 failingPeer).2
    = [("POST", "/property", ["abc"])].
Proof. vm_compute. repeat split. Qed.

(** The same model used for a second DoReq: the request then carries the
    request id and the content type twice. *)
Example DoReq_twice :
  let first := DoReq (F:=float) background "POST" (model true) None None failingPeer in
  let again := {| model_headers := first.1;
                  model_Validate := None;
                  model_uri := model_uri (model true);
                  model_value := encodable |} in
  let second := DoReq (F:=float) background "POST" again None None failingPeer in
  (λ x, (http_Request.Header x.1 !!! "X-Request-Id",
         http_Request.Header x.1 !!! "Content-Type"))
    <$> sent (result second.2 failingPeer).2
  = [(["abc"; "abc"], ["application/json"; "application/json"])].
Proof. vm_compute. reflexivity. Qed.

Lemma ErrorOrNil_can_be_an_error_without_text_witness :
  let e := {| example.apiError :=
                {| example.Code := 404; example.Message := "";
                   example.Type_ := "not_found" |} |} in
  example.ErrorOrNil e = Some e ∧ example.Error e = "".
Proof.
  intros e. apply (ErrorOrNil_can_be_an_error_without_text e).
  - reflexivity.
  - left. vm_compute. congruence.
Defined.

(** An error response with a message, printed. *)
Example Error_text :
  example.Error
    {| example.apiError :=
         {| example.Code := 404; example.Message := "no such property";
            example.Type_ := "not_found" |} |}
  = "RPM error: not_found (404) no such property".
Proof. vm_compute. reflexivity. Qed.
End MoreRuns.
